(** * Verification of [automate_building_dockerfiles.py]

    A shallow embedding of the Dockerfile build/repair orchestrator and of
    the pure helpers it relies on (version extraction and substitution,
    image-tag sanitisation, test-result parsing, the repair client), followed
    by the properties established about them.

    Conventions of the embedding:
    - a Python [str] is a [string]; its characters are the code points below
      256, and the character classes [\s], [\d] and [str.isspace] are the
      ones CPython uses on that range;
    - a Python [int] is a [Z]; the interpreter's optional limit on the length
      of decimal literals accepted by [int()] is not part of the model;
    - a Python [float] is a binary64 [spec_float];
    - [None] is [None] of an option type; a raised exception is [Raise],
      and the exceptions are the instances of [Exception];
    - the docker engine, the HTTP service and the file system are an
      environment [Env] acting on an abstract world; every call the
      orchestrator makes is also recorded in an event trace;
    - the append of a row to [results.csv] is taken to succeed, and the row
      is an event of the trace;
    - [logging], [print] and [time.sleep] have no effect of interest and are
      left out. *)

From Stdlib Require Import Bool Arith ZArith NArith Lia List Ascii String.
From Stdlib Require Import DecimalString SpecFloat Sorted.
Import ListNotations.

Local Open Scope list_scope.
Local Open Scope string_scope.

(* ------------------------------------------------------------------ *)
(** ** Characters and strings *)

Module Chars.

Definition code (c : ascii) : N := N_of_ascii c.

Definition between (lo hi : N) (c : ascii) : bool :=
  (N.leb lo (code c) && N.leb (code c) hi)%bool.

(** [\d] on a [str] pattern: the decimal digits. *)
Definition is_digit (c : ascii) : bool := between 48 57 c.

Definition is_octdigit (c : ascii) : bool := between 48 55 c.

Definition is_upper (c : ascii) : bool := between 65 90 c.

Definition is_lower (c : ascii) : bool := between 97 122 c.

Definition is_ascii_letter (c : ascii) : bool := (is_upper c || is_lower c)%bool.

Definition is_alnum (c : ascii) : bool := (is_ascii_letter c || is_digit c)%bool.

(** [\s] on a [str] pattern and [str.isspace]: TAB..CR, FS..US, space,
    NEL and the no-break space. *)
Definition is_space (c : ascii) : bool :=
  (between 9 13 c || between 28 32 c
   || N.eqb (code c) 133 || N.eqb (code c) 160)%bool.

(** [\S] *)
Definition is_nonspace (c : ascii) : bool := negb (is_space c).

(** [str.lower] on one character: A-Z and the upper-case letters of the
    Latin-1 supplement move up by 32. *)
Definition lower_char (c : ascii) : ascii :=
  if (is_upper c
      || (between 192 222 c && negb (N.eqb (code c) 215)))%bool
  then ascii_of_N (code c + 32) else c.

End Chars.

Module Str.

Fixpoint map (f : ascii -> ascii) (s : string) : string :=
  match s with
  | EmptyString => EmptyString
  | String c s' => String (f c) (map f s')
  end.

Fixpoint forallb (p : ascii -> bool) (s : string) : bool :=
  match s with
  | EmptyString => true
  | String c s' => (p c && forallb p s')%bool
  end.

Fixpoint existsb (p : ascii -> bool) (s : string) : bool :=
  match s with
  | EmptyString => false
  | String c s' => (p c || existsb p s')%bool
  end.

Fixpoint skip (n : nat) (s : string) : string :=
  match n, s with
  | O, _ => s
  | S n', String _ s' => skip n' s'
  | S _, EmptyString => EmptyString
  end.

Fixpoint take (n : nat) (s : string) : string :=
  match n, s with
  | S n', String c s' => String c (take n' s')
  | _, _ => EmptyString
  end.

Fixpoint drop_while (p : ascii -> bool) (s : string) : string :=
  match s with
  | String c s' => if p c then drop_while p s' else s
  | EmptyString => EmptyString
  end.

Fixpoint rev_onto (s acc : string) : string :=
  match s with
  | EmptyString => acc
  | String c s' => rev_onto s' (String c acc)
  end.

Definition rev (s : string) : string := rev_onto s EmptyString.

(** [s.lower()] *)
Definition lower (s : string) : string := map Chars.lower_char s.

(** [s.strip()] *)
Definition strip (s : string) : string :=
  rev (drop_while Chars.is_space (rev (drop_while Chars.is_space s))).

(** [s[:-n]] for a positive [n] *)
Definition drop_last (n : nat) (s : string) : string :=
  take (length s - n) s.

(** [s.replace(c, '')] for a one-character [c] *)
Fixpoint remove_char (c : ascii) (s : string) : string :=
  match s with
  | EmptyString => EmptyString
  | String a s' =>
      if Ascii.eqb a c then remove_char c s' else String a (remove_char c s')
  end.

(** [''.join(l)] *)
Fixpoint join (l : list string) : string :=
  match l with
  | [] => EmptyString
  | x :: l' => x ++ join l'
  end.

(** [s.split(d, 1)] when [d] occurs in [s]: the text before and after the
    first occurrence; [None] when [d] does not occur ([d in s] is false). *)
Fixpoint split_once (d s : string) : option (string * string) :=
  if prefix d s then Some (EmptyString, skip (length d) s)
  else match s with
       | EmptyString => None
       | String c s' =>
           match split_once d s' with
           | Some (a, b) => Some (String c a, b)
           | None => None
           end
       end.

(** [int(s)] for a run of decimal digits, most significant first *)
Fixpoint int_of_digits_acc (acc : Z) (s : string) : Z :=
  match s with
  | EmptyString => acc
  | String c s' =>
      int_of_digits_acc (10 * acc + (Z.of_N (Chars.code c) - 48))%Z s'
  end.

Definition int_of_digits (s : string) : Z := int_of_digits_acc 0 s.

(** [str(n)] for a natural number *)
Definition of_nat (n : nat) : string := NilEmpty.string_of_uint (Nat.to_uint n).

End Str.

(** [l[-n:]] for a positive [n] *)
Definition last_n {A} (n : nat) (l : list A) : list A :=
  skipn (List.length l - n) l.

(* ------------------------------------------------------------------ *)
(** ** Outcomes of Python computations *)

Inductive exn : Type :=
| ReError (msg : string)
| IndexError (msg : string)
| KeyError (msg : string)
| TypeError (msg : string)
| AttributeError (msg : string)
| ValueError (msg : string)
| ZeroDivisionError (msg : string)
| OverflowError (msg : string)
| OtherError (msg : string).

(** [str(e)] *)
Definition exn_text (e : exn) : string :=
  match e with
  | ReError m | IndexError m | KeyError m | TypeError m
  | AttributeError m | ValueError m | ZeroDivisionError m
  | OverflowError m | OtherError m => m
  end.

Inductive result (A : Type) : Type :=
| Ret (a : A)
| Raise (e : exn).
Arguments Ret {A} a.
Arguments Raise {A} e.

(* ------------------------------------------------------------------ *)
(** ** The fragment of [re] the program uses *)

Module Re.

(** A pattern is a sequence of items: one character of a class, a greedy
    [*] or [+] over a class, and the parentheses of group 1. *)
Inductive item : Type :=
| Chr (p : ascii -> bool)
| Star (p : ascii -> bool)
| Plus (p : ascii -> bool)
| Open
| Close.

Definition pattern := list item.

(** The items of a literal text. *)
Fixpoint lit (s : string) : pattern :=
  match s with
  | EmptyString => []
  | String c s' => Chr (Ascii.eqb c) :: lit s'
  end.

(** Number of groups of a pattern. *)
Fixpoint groups (p : pattern) : nat :=
  match p with
  | [] => 0
  | Open :: p' => S (groups p')
  | _ :: p' => groups p'
  end.

(** A match, with offsets counted from the position where it starts:
    the end of the match and the span of group 1. *)
Record span : Type := MkSpan {
  m_end : nat;
  m_open : option nat;
  m_group : option (nat * nat)
}.

(** Greedy repetition with backtracking: take one more character of the
    class as long as the rest of the pattern then matches, otherwise hand
    the current position to the rest of the pattern. *)
Fixpoint star (p : ascii -> bool) (k : nat -> string -> option span)
         (n : nat) (s : string) : option span :=
  match s with
  | String c s' =>
      if p c then
        match star p k (S n) s' with
        | Some m => Some m
        | None => k n s
        end
      else k n s
  | EmptyString => k n s
  end.

(** [run pat n s o g]: match [pat] against [s], [n] characters into the
    match, with [o] the offset at which group 1 was opened and [g] its
    span once closed. *)
Fixpoint run (pat : pattern) (n : nat) (s : string)
         (o : option nat) (g : option (nat * nat)) : option span :=
  match pat with
  | [] => Some (MkSpan n o g)
  | Chr p :: pat' =>
      match s with
      | String c s' => if p c then run pat' (S n) s' o g else None
      | EmptyString => None
      end
  | Star p :: pat' => star p (fun n' s' => run pat' n' s' o g) n s
  | Plus p :: pat' =>
      match s with
      | String c s' =>
          if p c then star p (fun n' s' => run pat' n' s' o g) (S n) s'
          else None
      | EmptyString => None
      end
  | Open :: pat' => run pat' n s (Some n) g
  | Close :: pat' =>
      run pat' n s o (match o with Some b => Some (b, n) | None => g end)
  end.

(** [pattern.match(s)]: a match starting at the first character. *)
Definition match_here (pat : pattern) (s : string) : option span :=
  run pat 0 s None None.

(** A match object: where the match starts in the subject, the subject
    from that position on, and the offsets. *)
Record mobj : Type := MkMatch {
  m_start : nat;
  m_subject : string;
  m_span : span
}.

(** [m.group(0)] *)
Definition group0 (m : mobj) : string :=
  Str.take (m_end (m_span m)) (m_subject m).

(** [m.group(1)] *)
Definition group1 (m : mobj) : option string :=
  match m_group (m_span m) with
  | Some (b, e) => Some (Str.take (e - b) (Str.skip b (m_subject m)))
  | None => None
  end.

(** [re.search(pat, s)]: the leftmost position with a match. *)
Fixpoint search_from (pat : pattern) (i : nat) (s : string) : option mobj :=
  match match_here pat s with
  | Some sp => Some (MkMatch i s sp)
  | None =>
      match s with
      | String _ s' => search_from pat (S i) s'
      | EmptyString => None
      end
  end.

Definition search (pat : pattern) (s : string) : option mobj :=
  search_from pat 0 s.

(** *** Replacement templates *)

Inductive piece : Type :=
| TLit (s : string)
| TGroup (n : nat).

Definition ESCAPES (c : ascii) : option ascii :=
  let n := Chars.code c in
  if N.eqb n 97 then Some (ascii_of_N 7)            (* \a *)
  else if N.eqb n 98 then Some (ascii_of_N 8)       (* \b *)
  else if N.eqb n 102 then Some (ascii_of_N 12)     (* \f *)
  else if N.eqb n 110 then Some (ascii_of_N 10)     (* \n *)
  else if N.eqb n 114 then Some (ascii_of_N 13)     (* \r *)
  else if N.eqb n 116 then Some (ascii_of_N 9)      (* \t *)
  else if N.eqb n 118 then Some (ascii_of_N 11)     (* \v *)
  else if N.eqb n 92 then Some (ascii_of_N 92)      (* \\ *)
  else None.

Definition MAXGROUPS : Z := 2147483647.

Definition octal_value (s : string) : N :=
  (fix go (acc : N) (s : string) : N :=
     match s with
     | EmptyString => acc
     | String c s' => go (8 * acc + (Chars.code c - 48))%N s'
     end) 0%N s.

Definition backslash : ascii := ascii_of_N 92.

(** [parse_template]: the literal texts and group references of a
    replacement string that contains a backslash.  [ngroups] is
    [pattern.groups]; the pattern has no named group.  Every step consumes
    at least one character, so [fuel] above the length of the template is
    never used up. *)
Fixpoint parse_template (fuel : nat) (ngroups : nat) (s : string)
  : result (list piece) :=
  match fuel with
  | O => Raise (ReError "template too long")
  | S fuel' =>
    let continue (p : piece) (rest : string) :=
      match parse_template fuel' ngroups rest with
      | Ret ps => Ret (p :: ps)
      | Raise e => Raise e
      end in
    let addgroup (index : nat) (rest : string) :=
      if Nat.ltb ngroups index
      then Raise (ReError "invalid group reference")
      else continue (TGroup index) rest in
    match s with
    | EmptyString => Ret []
    | String c rest =>
      if negb (Ascii.eqb c backslash) then continue (TLit (String c "")) rest
      else
        match rest with
        | EmptyString => Raise (ReError "bad escape (end of pattern)")
        | String c1 rest1 =>
          if Ascii.eqb c1 "g" then
            match rest1 with
            | String "<" rest2 =>
                match Str.split_once ">" rest2 with
                | None => Raise (ReError "missing >, unterminated name")
                | Some (name, rest3) =>
                    if String.eqb name "" then
                      Raise (ReError "missing group name")
                    else if Str.forallb Chars.is_digit name then
                      if Z.geb (Str.int_of_digits name) MAXGROUPS then
                        Raise (ReError "invalid group reference")
                      else addgroup (Z.to_nat (Str.int_of_digits name)) rest3
                    else
                      (* re.error when the name is no identifier,
                         IndexError otherwise *)
                      Raise (OtherError "bad or unknown group name")
                end
            | _ => Raise (ReError "missing <")
            end
          else if Ascii.eqb c1 "0" then
            match rest1 with
            | String d1 rest2 =>
                if Chars.is_octdigit d1 then
                  match rest2 with
                  | String d2 rest3 =>
                      if Chars.is_octdigit d2 then
                        continue
                          (TLit (String (ascii_of_N
                             (N.land (octal_value (String d1 (String d2 "")))
                                     255)) ""))
                          rest3
                      else
                        continue
                          (TLit (String (ascii_of_N
                                   (octal_value (String d1 ""))) ""))
                          rest2
                  | EmptyString =>
                      continue
                        (TLit (String (ascii_of_N
                                 (octal_value (String d1 ""))) ""))
                        rest2
                  end
                else continue (TLit (String (ascii_of_N 0) "")) rest1
            | EmptyString => continue (TLit (String (ascii_of_N 0) "")) rest1
            end
          else if Chars.is_digit c1 then
            match rest1 with
            | String d1 rest2 =>
                if Chars.is_digit d1 then
                  match rest2 with
                  | String d2 rest3 =>
                      if (Chars.is_octdigit c1 && Chars.is_octdigit d1
                          && Chars.is_octdigit d2)%bool then
                        let v := octal_value
                                   (String c1 (String d1 (String d2 ""))) in
                        if N.ltb 255 v then
                          Raise (ReError "octal escape value outside of range")
                        else continue (TLit (String (ascii_of_N v) "")) rest3
                      else
                        addgroup
                          (Z.to_nat
                             (Str.int_of_digits (String c1 (String d1 ""))))
                          rest2
                  | EmptyString =>
                      addgroup
                        (Z.to_nat
                           (Str.int_of_digits (String c1 (String d1 ""))))
                        rest2
                  end
                else
                  addgroup (Z.to_nat (Str.int_of_digits (String c1 ""))) rest1
            | EmptyString =>
                addgroup (Z.to_nat (Str.int_of_digits (String c1 ""))) rest1
            end
          else
            match ESCAPES c1 with
            | Some e => continue (TLit (String e "")) rest1
            | None =>
                if Chars.is_ascii_letter c1 then Raise (ReError "bad escape")
                else continue (TLit (String c (String c1 ""))) rest1
            end
        end
    end
  end.

(** The compiled replacement: the text itself when it has no backslash,
    the parsed template otherwise. *)
Definition compile_template (ngroups : nat) (repl : string)
  : result (list piece) :=
  if Str.existsb (Ascii.eqb backslash) repl
  then parse_template (S (length repl)) ngroups repl
  else Ret [TLit repl].

(** Expansion of a compiled replacement at a match.  Only group 0 and
    group 1 exist in the patterns of this program. *)
Fixpoint expand (t : list piece) (s : string) (sp : span) : string :=
  match t with
  | [] => EmptyString
  | TLit x :: t' => x ++ expand t' s sp
  | TGroup 0 :: t' => Str.take (m_end sp) s ++ expand t' s sp
  | TGroup _ :: t' =>
      match m_group sp with
      | Some (b, e) => Str.take (e - b) (Str.skip b s) ++ expand t' s sp
      | None => expand t' s sp
      end
  end.

(** The scan of [re.sub]: [pending] characters of the last match are still
    to be passed over; otherwise a match at the current position is
    replaced, and a character without a match is copied. *)
Fixpoint sub_scan (pat : pattern) (t : list piece) (s : string)
         (pending : nat) : string :=
  match pending with
  | S k =>
      match s with
      | String _ s' => sub_scan pat t s' k
      | EmptyString => EmptyString
      end
  | O =>
      match match_here pat s with
      | Some sp =>
          expand t s sp ++
          match s with
          | String c s' =>
              match m_end sp with
              | O => String c (sub_scan pat t s' 0)
              | S l => sub_scan pat t s' l
              end
          | EmptyString => EmptyString
          end
      | None =>
          match s with
          | String c s' => String c (sub_scan pat t s' 0)
          | EmptyString => EmptyString
          end
      end
  end.

(** [re.sub(pat, repl, s)] *)
Definition sub (pat : pattern) (repl : string) (s : string) : result string :=
  match compile_template (groups pat) repl with
  | Ret t => Ret (sub_scan pat t s 0)
  | Raise e => Raise e
  end.

End Re.

(* ------------------------------------------------------------------ *)
(** ** The pure helpers of the script *)

(** [r'FROM\s+ubuntu:(\S+)'] *)
Definition base_version_pattern : Re.pattern :=
  (Re.lit "FROM" ++ [Re.Plus Chars.is_space] ++ Re.lit "ubuntu:"
   ++ [Re.Open; Re.Plus Chars.is_nonspace; Re.Close])%list.

(** [r'FROM\s+ubuntu:\S+'] *)
Definition from_line_pattern : Re.pattern :=
  (Re.lit "FROM" ++ [Re.Plus Chars.is_space] ++ Re.lit "ubuntu:"
   ++ [Re.Plus Chars.is_nonspace])%list.

Definition extract_base_version (dockerfile_content : string) : option string :=
  match Re.search base_version_pattern dockerfile_content with
  | Some m => Re.group1 m
  | None => None
  end.

Definition update_dockerfile_content (dockerfile_content ubuntu_version : string)
  : result string :=
  Re.sub from_line_pattern ("FROM ubuntu:" ++ ubuntu_version) dockerfile_content.

(** The class [[^a-zA-Z0-9_.-]] *)
Definition tag_forbidden (c : ascii) : bool :=
  negb (Chars.is_alnum c
        || Ascii.eqb c "_" || Ascii.eqb c "." || Ascii.eqb c "-")%bool.

Definition sanitize_image_tag (tag : string) : result string :=
  match Re.sub [Re.Chr tag_forbidden] "_" tag with
  | Ret t => Ret (Str.lower t)
  | Raise e => Raise e
  end.

(** *** Numbers *)

Inductive number : Type :=
| PyInt (z : Z)
| PyFloat (f : spec_float).

Definition prec : Z := 53.
Definition emax : Z := 1024.

(** [float(n)] *)
Definition float_of_int (n : Z) : spec_float :=
  binary_normalize prec emax n 0 false.

(** [a / b] on two [int]s: the quotient rounded once to binary64. *)
Definition int_true_div (a b : Z) : result spec_float :=
  match b with
  | Z0 => Raise (ZeroDivisionError "division by zero")
  | _ =>
      match a with
      | Z0 => Ret (S754_zero (Z.ltb b 0))
      | _ =>
          match SFdiv prec emax
                  (S754_finite (Z.ltb a 0) (Z.to_pos (Z.abs a)) 0)
                  (S754_finite (Z.ltb b 0) (Z.to_pos (Z.abs b)) 0) with
          | S754_infinity _ =>
              Raise (OverflowError
                       "integer division result too large for a float")
          | q => Ret q
          end
      end
  end.

(** [x * n] for a [float] [x] and an [int] [n] *)
Definition float_mul_int (x : spec_float) (n : Z) : spec_float :=
  SFmul prec emax x (float_of_int n).

(** *** Test results *)

(** [r'Tests Passed:\s*(\d+)'] *)
Definition pass_pattern : Re.pattern :=
  (Re.lit "Tests Passed:"
   ++ [Re.Star Chars.is_space; Re.Open; Re.Plus Chars.is_digit; Re.Close])%list.

(** [r'Tests Failed:\s*(\d+)'] *)
Definition fail_pattern : Re.pattern :=
  (Re.lit "Tests Failed:"
   ++ [Re.Star Chars.is_space; Re.Open; Re.Plus Chars.is_digit; Re.Close])%list.

(** [int(m.group(1)) if m else default] *)
Definition captured_count (m : option Re.mobj) (default : Z) : result Z :=
  match m with
  | Some m =>
      match Re.group1 m with
      | Some digits => Ret (Str.int_of_digits digits)
      | None => Raise (TypeError "int() argument must be a string")
      end
  | None => Ret default
  end.

Definition parse_test_results (logs : string) : result (Z * Z * number) :=
  let passed := Re.search pass_pattern logs in
  let failed := Re.search fail_pattern logs in
  match captured_count passed 1 with
  | Raise e => Raise e
  | Ret passed_cases =>
      match captured_count failed 0 with
      | Raise e => Raise e
      | Ret failed_cases =>
          let total_cases := (passed_cases + failed_cases)%Z in
          if Z.ltb 0 total_cases then
            match int_true_div passed_cases total_cases with
            | Raise e => Raise e
            | Ret q =>
                Ret (passed_cases, failed_cases, PyFloat (float_mul_int q 100))
            end
          else Ret (passed_cases, failed_cases, PyInt 0)
      end
  end.

(* ------------------------------------------------------------------ *)
(** ** The environment and the trace *)

(** A decoded JSON document. *)
#[local] Set Warnings "-register-all".
Inductive json : Type :=
| JNull
| JBool (b : bool)
| JNumber (z : Z)
| JString (s : string)
| JArray (l : list json)
| JObject (d : list (string * json)).

(** What [client.images.build] does: the log entries carry an optional
    ['stream'] field. *)
Inductive build_outcome : Type :=
| BuildOk (build_logs : list (option string))
| BuildError (build_log : list (option string))
| BuildRaised (e : exn).

(** What running the container and decoding its logs does. *)
Inductive run_outcome : Type :=
| RunOk (logs : string)
| RunRaised (e : exn).

(** What [requests.post] does: it raises, or answers with a status code,
    a text and the outcome of [response.json()]. *)
Inductive http_outcome : Type :=
| PostRaised (e : exn)
| Response (status_code : Z) (text : string) (body : result json).

Record Env (W : Type) : Type := MkEnv {
  os_listdir : string -> W -> result (list string) * W;
  os_path_isdir : string -> W -> bool * W;
  os_path_exists : string -> W -> bool * W;
  file_read : string -> W -> result string * W;
  file_write : string -> string -> W -> result unit * W;
  file_writelines : string -> list string -> W -> result unit * W;
  images_build : string -> string -> string -> W -> build_outcome * W;
  containers_run : string -> W -> run_outcome * W;
  requests_post : string -> W -> http_outcome * W
}.
Arguments os_listdir {W}.
Arguments os_path_isdir {W}.
Arguments os_path_exists {W}.
Arguments file_read {W}.
Arguments file_write {W}.
Arguments file_writelines {W}.
Arguments images_build {W}.
Arguments containers_run {W}.
Arguments requests_post {W}.

(** A row of [results.csv]. *)
Record row : Type := MkRow {
  serial : Z;                       (* 'S. No.' *)
  row_bibcode : string;             (* 'Bibcode' *)
  row_base_version : string;        (* 'Base Version' *)
  row_ubuntu_version : string;      (* 'Updated Ubuntu Version' *)
  cases_passed : Z;                 (* 'Cases Passed' *)
  cases_failed : Z;                 (* 'Cases Failed' *)
  pass_percentage : number;         (* 'Pass Percentage' *)
  error_details : string;           (* 'Error Details' *)
  modifications : string            (* 'Modifications to Dockerfile' *)
}.

Inductive event : Type :=
| EvBuild (dockerfile_name image_tag build_context : string)
          (success : bool) (build_logs : list string)
| EvRepair (dockerfile_content error_logs : string)
| EvWriteFile (path content : string)
| EvWriteLines (path : string) (lines : list string)
| EvRun (image_tag : string)
| EvRow (data : row).

(** Computations: from a world to an outcome, the next world and the
    events that happened. *)
Definition M (W A : Type) : Type := W -> result A * W * list event.

Definition ret {W A} (a : A) : M W A := fun w => (Ret a, w, []).

Definition raise {W A} (e : exn) : M W A := fun w => (Raise e, w, []).

Definition bind {W A B} (m : M W A) (f : A -> M W B) : M W B :=
  fun w =>
    match m w with
    | (Ret a, w1, t1) =>
        match f a w1 with
        | (r, w2, t2) => (r, w2, (t1 ++ t2)%list)
        end
    | (Raise e, w1, t1) => (Raise e, w1, t1)
    end.

(** [try: m except Exception as e: h e] *)
Definition try_except {W A} (m : M W A) (h : exn -> M W A) : M W A :=
  fun w =>
    match m w with
    | (Ret a, w1, t1) => (Ret a, w1, t1)
    | (Raise e, w1, t1) =>
        match h e w1 with
        | (r, w2, t2) => (r, w2, (t1 ++ t2)%list)
        end
    end.

Definition emit {W} (ev : event) : M W unit := fun w => (Ret tt, w, [ev]).

Definition call {W A} (op : W -> A * W) : M W A :=
  fun w => match op w with (a, w1) => (Ret a, w1, []) end.

Definition lift {W A} (r : result A) : M W A := fun w => (r, w, []).

Declare Scope py_scope.
Delimit Scope py_scope with py.
Notation "x <- m ;; k" := (bind m (fun x => k))
  (at level 61, m at next level, right associativity) : py_scope.
Notation "m ;;; k" := (bind m (fun _ => k))
  (at level 61, right associativity) : py_scope.

Definition outcome {W A} (x : result A * W * list event) : result A :=
  fst (fst x).
Definition world {W A} (x : result A * W * list event) : W := snd (fst x).
Definition trace {W A} (x : result A * W * list event) : list event := snd x.

(** [os.path.join(a, b)] on a POSIX system *)
Definition path_join (a b : string) : string :=
  if prefix "/" b then b
  else if (String.eqb a "" || String.eqb (Str.take 1 (Str.rev a)) "/")%bool
       then a ++ b
       else a ++ "/" ++ b.

Definition UBUNTU_VERSIONS : list string :=
  ["14.04"; "16.04"; "18.04"; "20.04"; "22.04"; "24.04"].

Definition max_retries : nat := 3.

Definition LF : string := String (ascii_of_N 10) "".

(* ------------------------------------------------------------------ *)
(** ** The script *)

Section Script.

Context {W : Type} (env : Env W).

Local Open Scope py_scope.

(** *** [build_image] *)

(** [line.get('stream', '')] *)
Definition stream_of (line : option string) : string :=
  match line with
  | Some s => s
  | None => ""
  end.

Definition build_image (dockerfile_name image_tag build_context : string)
  : M W (bool * option string * list string) :=
  o <- call (images_build env build_context dockerfile_name image_tag) ;;
  let res :=
    match o with
    | BuildOk build_logs => (true, None, map stream_of build_logs)
    | BuildError build_log =>
        let build_logs_text := map stream_of build_log in
        (false, Some (Str.join build_logs_text), build_logs_text)
    | BuildRaised e => (false, Some (exn_text e), [])
    end in
  emit (EvBuild dockerfile_name image_tag build_context
          (fst (fst res)) (snd res)) ;;;
  ret res.

(** *** [run_container]

    The removal of the container in the [finally] clause does not change
    what is returned. *)

Definition run_container (image_tag : string) : M W (bool * string) :=
  emit (EvRun image_tag) ;;;
  o <- call (containers_run env image_tag) ;;
  match o with
  | RunOk logs => ret (true, logs)
  | RunRaised e => ret (false, exn_text e)
  end.

(** *** [log_results]

    The row is appended to the table (with the header first when the file
    is new). *)

Definition log_results (data : row) : M W unit := emit (EvRow data).

(** *** [fix_dockerfile_with_llm] *)

Definition prompt_of (dockerfile_content error_logs : string) : string :=
  "The following Dockerfile failed to build due to the errors listed below. Please analyze the Dockerfile and the error logs,         and provide a corrected version of the Dockerfile. Only return the fixed Dockerfile without any additional text. Make sure to give space after RUN Command.         Dockerfile:"
  ++ LF ++ dockerfile_content ++ " Error Logs:" ++ LF ++ error_logs
  ++ ". Fixed Dockerfile:".

(** [d in s] for two strings *)
Definition contains (d s : string) : bool :=
  match Str.split_once d s with
  | Some _ => true
  | None => false
  end.

Definition is_str (x : string) (j : json) : bool :=
  match j with
  | JString s => String.eqb s x
  | _ => false
  end.

Fixpoint dict_get (k : string) (d : list (string * json)) : option json :=
  match d with
  | [] => None
  | (k', v) :: d' => if String.eqb k' k then Some v else dict_get k d'
  end.

(** ['error' in response_json] *)
Definition has_error (j : json) : result bool :=
  match j with
  | JObject d =>
      Ret (match dict_get "error" d with Some _ => true | None => false end)
  | JArray l => Ret (existsb (is_str "error") l)
  | JString s => Ret (contains "error" s)
  | _ => Raise (TypeError "argument is not iterable")
  end.

(** [response_json['error']] *)
Definition error_field (j : json) : result json :=
  match j with
  | JObject d =>
      match dict_get "error" d with
      | Some v => Ret v
      | None => Raise (KeyError "error")
      end
  | JArray _ => Raise (TypeError "list indices must be integers")
  | JString _ => Raise (TypeError "string indices must be integers")
  | _ => Raise (TypeError "object is not subscriptable")
  end.

(** [response_json[0]] *)
Definition first_item (j : json) : result json :=
  match j with
  | JArray (x :: _) => Ret x
  | JArray [] => Raise (IndexError "list index out of range")
  | JObject _ => Raise (KeyError "0")
  | JString (String c _) => Ret (JString (String c ""))
  | JString EmptyString => Raise (IndexError "string index out of range")
  | _ => Raise (TypeError "object is not subscriptable")
  end.

(** [x.get('generated_text', '').strip()] *)
Definition generated_text_of (x : json) : result string :=
  match x with
  | JObject d =>
      match dict_get "generated_text" d with
      | Some (JString s) => Ret (Str.strip s)
      | Some _ => Raise (AttributeError "object has no attribute 'strip'")
      | None => Ret (Str.strip "")
      end
  | _ => Raise (AttributeError "object has no attribute 'get'")
  end.

(** The text kept from the generated answer: what follows the first
    ["Fixed Dockerfile:"], cut before the first ["Note:"] and the first
    ["Note that"]. *)
Definition extract_fixed (generated_text : string) : string :=
  let fixed_dockerfile :=
    match Str.split_once "Fixed Dockerfile:" generated_text with
    | Some (_, after) => Str.strip after
    | None => generated_text
    end in
  let fixed_dockerfile :=
    match Str.split_once "Note:" fixed_dockerfile with
    | Some (before, _) => Str.strip before
    | None => fixed_dockerfile
    end in
  match Str.split_once "Note that" fixed_dockerfile with
  | Some (before, _) => Str.strip before
  | None => fixed_dockerfile
  end.

(** The body of the [try] block. *)
Definition fix_dockerfile_try (dockerfile_content error_logs : string)
  : M W (option string) :=
  response <- call (requests_post env (prompt_of dockerfile_content error_logs)) ;;
  match response with
  | PostRaised e => raise e
  | Response status_code text body =>
      if negb (Z.eqb status_code 200) then ret None
      else
        response_json <- lift body ;;
        err <- lift (has_error response_json) ;;
        if (err : bool) then
          _ <- lift (error_field response_json) ;;
          ret None
        else
          first <- lift (first_item response_json) ;;
          generated_text <- lift (generated_text_of first) ;;
          if String.eqb generated_text "" then ret None
          else ret (Some (extract_fixed generated_text))
  end.

Definition fix_dockerfile_with_llm (dockerfile_content error_logs : string)
  : M W (option string) :=
  emit (EvRepair dockerfile_content error_logs) ;;;
  try_except (fix_dockerfile_try dockerfile_content error_logs)
             (fun _ => ret None).

(** *** [main] *)

(** The state of the build of one (Bibcode, Ubuntu version) pair. *)
Record attempt : Type := MkAttempt {
  success : bool;
  error_message : option string;
  build_logs : list string;
  retry_count : nat
}.

(** [not x] for an optional string *)
Definition falsy (x : option string) : bool :=
  match x with
  | None => true
  | Some s => String.eqb s ""
  end.

(** The block that stores the last 200 lines of the build logs; a failed
    write is only logged. *)
Definition store_build_logs (log_file_path : string) (logs : list string)
  : M W unit :=
  emit (EvWriteLines log_file_path (last_n 200 logs)) ;;;
  _ <- call (file_writelines env log_file_path (last_n 200 logs)) ;;
  ret tt.

Section Pair.

Variables (bibcode_dir bibcode base_version ubuntu_version : string).
Variables (updated_dockerfile_content image_tag : string).

Definition version_nodots : string := Str.remove_char "." ubuntu_version.

(** The [while not success and retry_count < max_retries] loop.  Each
    completed iteration increments [retry_count], so [max_retries] units
    of [fuel] are enough. *)
Fixpoint retry_loop (fuel : nat) (st : attempt) : M W attempt :=
  if (negb (success st) && Nat.ltb (retry_count st) max_retries)%bool then
    match fuel with
    | O => raise (OtherError "retry loop out of fuel")
    | S fuel' =>
        let error_logs := Str.join (last_n 200 (build_logs st)) in
        fixed_dockerfile_content <-
          fix_dockerfile_with_llm updated_dockerfile_content error_logs ;;
        match fixed_dockerfile_content with
        | None => ret st
        | Some fixed =>
          if String.eqb fixed "" then ret st
          else
            let fixed_dockerfile_name :=
              "Dockerfile_" ++ ubuntu_version ++ "_fixed_"
              ++ Str.of_nat (retry_count st + 1) in
            let fixed_dockerfile_path :=
              path_join bibcode_dir fixed_dockerfile_name in
            emit (EvWriteFile fixed_dockerfile_path fixed) ;;;
            written <- call (file_write env fixed_dockerfile_path fixed) ;;
            match written with
            | Raise _ => ret st
            | Ret _ =>
                b <- build_image fixed_dockerfile_name image_tag bibcode_dir ;;
                let fixed_log_file_name :=
                  "build_log_" ++ version_nodots ++ "_fixed_"
                  ++ Str.of_nat (retry_count st + 1) ++ ".txt" in
                store_build_logs (path_join bibcode_dir fixed_log_file_name)
                                 (snd b) ;;;
                retry_loop fuel'
                  (MkAttempt (fst (fst b)) (snd (fst b)) (snd b)
                             (retry_count st + 1))
            end
        end
    end
  else ret st.

(** The part of the loop body of [main] after the retry loop: run and
    record; returns the next serial number. *)
Definition record_outcome (st : attempt) (serial_no : Z) : M W Z :=
  if success st then
    r <- run_container image_tag ;;
    if fst r then
      t <- lift (parse_test_results (snd r)) ;;
      log_results
        (MkRow serial_no bibcode base_version ubuntu_version
               (fst (fst t)) (snd (fst t)) (snd t) "" "") ;;;
      ret (serial_no + 1)%Z
    else
      log_results
        (MkRow serial_no bibcode base_version ubuntu_version
               0 0 (PyInt 0) (snd r) "") ;;;
      ret (serial_no + 1)%Z
  else
    match error_message st with
    | None => raise (TypeError "'NoneType' object is not subscriptable")
    | Some msg =>
        log_results
          (MkRow serial_no bibcode base_version ubuntu_version
                 0 0 (PyInt 0) (Str.drop_last 5 msg)
                 ("Attempted fixes via LLM API, "
                  ++ Str.of_nat (retry_count st) ++ " retries")) ;;;
        ret (serial_no + 1)%Z
    end.

(** From the first build to the recorded outcome. *)
Definition build_repair_record (temp_dockerfile_name : string)
           (serial_no : Z) : M W Z :=
  b <- build_image temp_dockerfile_name image_tag bibcode_dir ;;
  store_build_logs
    (path_join bibcode_dir ("build_log_" ++ version_nodots ++ ".txt"))
    (snd b) ;;;
  st <- retry_loop max_retries
          (MkAttempt (fst (fst b)) (snd (fst b)) (snd b) 0) ;;
  record_outcome st serial_no.

End Pair.

(** The body of [for ubuntu_version in UBUNTU_VERSIONS]. *)
Definition process_version (bibcode_dir bibcode base_version
                            dockerfile_content ubuntu_version : string)
           (serial_no : Z) : M W Z :=
  updated_dockerfile_content <-
    lift (update_dockerfile_content dockerfile_content ubuntu_version) ;;
  if String.eqb (Str.strip updated_dockerfile_content) "" then ret serial_no
  else
    let temp_dockerfile_name := "Dockerfile_" ++ ubuntu_version in
    let temp_dockerfile_path := path_join bibcode_dir temp_dockerfile_name in
    emit (EvWriteFile temp_dockerfile_path updated_dockerfile_content) ;;;
    written <- call (file_write env temp_dockerfile_path
                       updated_dockerfile_content) ;;
    match written with
    | Raise _ => ret serial_no
    | Ret _ =>
        sanitized_bibcode <- lift (sanitize_image_tag bibcode) ;;
        let image_tag :=
          sanitized_bibcode ++ ":" ++ Str.remove_char "." ubuntu_version in
        build_repair_record bibcode_dir bibcode base_version ubuntu_version
          updated_dockerfile_content image_tag temp_dockerfile_name serial_no
    end.

(** A [for] loop that threads the serial number. *)
Fixpoint for_each {A} (body : A -> Z -> M W Z) (l : list A) (serial_no : Z)
  : M W Z :=
  match l with
  | [] => ret serial_no
  | x :: l' => s <- body x serial_no ;; for_each body l' s
  end.

(** The body of [for bibcode in bibcode_dirs]. *)
Definition process_bibcode (base_directory bibcode : string) (serial_no : Z)
  : M W Z :=
  let bibcode_dir := path_join base_directory bibcode in
  let dockerfile_path := path_join bibcode_dir "Dockerfile" in
  present <- call (os_path_exists env dockerfile_path) ;;
  if negb present then ret serial_no
  else
    content <- call (file_read env dockerfile_path) ;;
    match content with
    | Raise _ => ret serial_no
    | Ret dockerfile_content =>
        match extract_base_version dockerfile_content with
        | None => ret serial_no
        | Some base_version =>
            if String.eqb base_version "" then ret serial_no
            else
              for_each
                (process_version bibcode_dir bibcode base_version
                                 dockerfile_content)
                UBUNTU_VERSIONS serial_no
        end
    end.

(** [[d for d in names if os.path.isdir(os.path.join(base, d))]] *)
Fixpoint keep_dirs (base_directory : string) (names : list string)
  : M W (list string) :=
  match names with
  | [] => ret []
  | d :: names' =>
      isdir <- call (os_path_isdir env (path_join base_directory d)) ;;
      rest <- keep_dirs base_directory names' ;;
      ret (if (isdir : bool) then d :: rest else rest)
  end.

Definition load_bibcode_directories (base_directory : string)
           (specific_bibcode : option string) : M W (list string) :=
  names <- call (os_listdir env base_directory) ;;
  names <- lift names ;;
  all_dirs <- keep_dirs base_directory names ;;
  if negb (falsy specific_bibcode) then
    match specific_bibcode with
    | Some b =>
        if existsb (String.eqb b) all_dirs then ret [b] else ret []
    | None => ret []
    end
  else ret all_dirs.

Definition main (base_directory : string) (specific_bibcode : option string)
  : M W unit :=
  bibcode_dirs <- load_bibcode_directories base_directory specific_bibcode ;;
  match negb (falsy specific_bibcode), bibcode_dirs with
  | true, [] => ret tt
  | _, _ =>
      _ <- for_each (process_bibcode base_directory) bibcode_dirs 1%Z ;;
      ret tt
  end.

End Script.

(* ------------------------------------------------------------------ *)
(** ** A scripted environment

    A world whose docker engine, repair service and container runs answer
    from queues, with a read-only table of files; used to run the script on
    concrete scenarios. *)

Module Scripted.

Record world : Type := MkWorld {
  subdirs : list string;
  files : list (string * string);
  builds : list build_outcome;
  posts : list http_outcome;
  runs : list run_outcome
}.

Fixpoint lookup (k : string) (l : list (string * string)) : option string :=
  match l with
  | [] => None
  | (k', v) :: l' => if String.eqb k' k then Some v else lookup k l'
  end.

Definition env : Env world := {|
  os_listdir := fun _ w => (Ret (subdirs w), w);
  os_path_isdir := fun _ w => (true, w);
  os_path_exists := fun p w =>
    (match lookup p (files w) with Some _ => true | None => false end, w);
  file_read := fun p w =>
    (match lookup p (files w) with
     | Some c => Ret c
     | None => Raise (OtherError "No such file or directory")
     end, w);
  file_write := fun _ _ w => (Ret tt, w);
  file_writelines := fun _ _ w => (Ret tt, w);
  images_build := fun _ _ _ w =>
    match builds w with
    | o :: rest =>
        (o, MkWorld (subdirs w) (files w) rest (posts w) (runs w))
    | [] => (BuildRaised (OtherError "no docker daemon"), w)
    end;
  containers_run := fun _ w =>
    match runs w with
    | o :: rest =>
        (o, MkWorld (subdirs w) (files w) (builds w) (posts w) rest)
    | [] => (RunRaised (OtherError "no docker daemon"), w)
    end;
  requests_post := fun _ w =>
    match posts w with
    | o :: rest =>
        (o, MkWorld (subdirs w) (files w) (builds w) rest (runs w))
    | [] => (PostRaised (OtherError "connection refused"), w)
    end
|}.

End Scripted.

(* ------------------------------------------------------------------ *)
(** ** Vocabulary of the statements *)

Import Re.

(** A string that is empty or starts with a character outside [p]. *)
Definition stops (p : ascii -> bool) (s : string) : bool :=
  match s with
  | EmptyString => true
  | String c _ => negb (p c)
  end.


Fixpoint take_while (p : ascii -> bool) (s : string) : string :=
  match s with
  | String c s' => if p c then String c (take_while p s') else EmptyString
  | EmptyString => EmptyString
  end.


(** The two [FROM] line patterns share everything but their last items. *)
Definition from_prefix (tail : pattern) : pattern :=
  (lit "FROM" ++ [Plus Chars.is_space] ++ lit "ubuntu:" ++ tail)%list.


(** The shape of a text on which the [FROM] line patterns match at the
    first character. *)
Definition from_shape (s ws : string) (a : ascii) (t : string) : Prop :=
  s = "FROM" ++ ws ++ "ubuntu:" ++ String a t /\ ws <> ""
  /\ Str.forallb Chars.is_space ws = true /\ Chars.is_nonspace a = true.


(** Two texts that coincide up to a point where both go on with [FROM]
    and a white space. *)
Inductive agree : string -> string -> Prop :=
| agree_same s : agree s s
| agree_from w1 w2 s1 s2 :
    Chars.is_space w1 = true -> Chars.is_space w2 = true ->
    agree ("FROM" ++ String w1 s1) ("FROM" ++ String w2 s2)
| agree_cons c s1 s2 : agree s1 s2 -> agree (String c s1) (String c s2).


Definition not_F (c : ascii) : bool := negb (Ascii.eqb c "F").


(** The scan of [update_dockerfile_content] for a version [v] without
    backslash. *)
Definition U (v s : string) : string :=
  Re.sub_scan from_line_pattern [Re.TLit ("FROM ubuntu:" ++ v)] s 0.

(** The text holds a [FROM ubuntu:<token>] directive. *)
Definition has_from_directive (c : string) : Prop :=
  exists pre ws a t,
    c = pre ++ "FROM" ++ ws ++ "ubuntu:" ++ String a t
    /\ ws <> "" /\ Str.forallb Chars.is_space ws = true
    /\ Chars.is_nonspace a = true.

Definition no_backslash (s : string) : Prop :=
  Str.existsb (Ascii.eqb backslash) s = false.


(** What the sanitisation does to one character. *)
Definition sanitize_char (c : ascii) : ascii :=
  Chars.lower_char (if tag_forbidden c then "_"%char else c).


(** [marker], white space and a digit start the text [s]. *)
Definition count_here (marker s : string) : Prop :=
  exists ws d t,
    s = marker ++ ws ++ String d t
    /\ Str.forallb Chars.is_space ws = true /\ Chars.is_digit d = true.

(** The leftmost occurrence of [marker], white space and digits in [logs]
    carries the number [n]. *)
Definition count_found (marker logs : string) (n : Z) : Prop :=
  exists pre ws ds rest,
    logs = pre ++ marker ++ ws ++ ds ++ rest
    /\ Str.forallb Chars.is_space ws = true
    /\ ds <> "" /\ Str.forallb Chars.is_digit ds = true
    /\ stops Chars.is_digit rest = true
    /\ n = Str.int_of_digits ds
    /\ forall pre' s', logs = pre' ++ s' -> length pre' < length pre ->
                       ~ count_here marker s'.

Definition count_absent (marker logs : string) : Prop :=
  forall pre s, logs = pre ++ s -> ~ count_here marker s.

Definition count_pattern (marker : string) : pattern :=
  (lit marker ++ [Star Chars.is_space; Open; Plus Chars.is_digit; Close])%list.




(** Projections of a trace. *)
Definition is_build (e : event) : bool :=
  match e with EvBuild _ _ _ _ _ => true | _ => false end.

Fixpoint rows (tr : list event) : list row :=
  match tr with
  | [] => []
  | EvRow r :: tr' => r :: rows tr'
  | _ :: tr' => rows tr'
  end.

Fixpoint repairs (tr : list event) : list (string * string) :=
  match tr with
  | [] => []
  | EvRepair c l :: tr' => (c, l) :: repairs tr'
  | _ :: tr' => repairs tr'
  end.

Fixpoint build_tags (tr : list event) : list string :=
  match tr with
  | [] => []
  | EvBuild _ tag _ _ _ :: tr' => tag :: build_tags tr'
  | _ :: tr' => build_tags tr'
  end.


(** The state after a build keeps an error message when the build failed. *)
Definition sound (st : attempt) : Prop :=
  success st = false -> error_message st <> None.

(** The events of the retry loop from the state [st] to the state in which
    it ends. *)
Inductive loop_shape (bibcode_dir ubuntu_version content image_tag : string)
  : attempt -> list event -> attempt -> Prop :=
| loop_done st :
    success st = true \/ max_retries <= retry_count st ->
    loop_shape bibcode_dir ubuntu_version content image_tag st [] st
| loop_unavailable st :
    success st = false -> retry_count st < max_retries ->
    loop_shape bibcode_dir ubuntu_version content image_tag st
      [EvRepair content (Str.join (last_n 200 (build_logs st)))] st
| loop_unwritten st fixed :
    success st = false -> retry_count st < max_retries ->
    loop_shape bibcode_dir ubuntu_version content image_tag st
      [EvRepair content (Str.join (last_n 200 (build_logs st)));
       EvWriteFile
         (path_join bibcode_dir
            ("Dockerfile_" ++ ubuntu_version ++ "_fixed_"
             ++ Str.of_nat (retry_count st + 1)))
         fixed]
      st
| loop_retry st fixed s e l tr st' :
    success st = false -> retry_count st < max_retries ->
    (s = false -> e <> None) ->
    loop_shape bibcode_dir ubuntu_version content image_tag
      (MkAttempt s e l (retry_count st + 1)) tr st' ->
    loop_shape bibcode_dir ubuntu_version content image_tag st
      (EvRepair content (Str.join (last_n 200 (build_logs st)))
       :: EvWriteFile
            (path_join bibcode_dir
               ("Dockerfile_" ++ ubuntu_version ++ "_fixed_"
                ++ Str.of_nat (retry_count st + 1)))
            fixed
       :: EvBuild ("Dockerfile_" ++ ubuntu_version ++ "_fixed_"
                   ++ Str.of_nat (retry_count st + 1))
                  image_tag bibcode_dir s l
       :: EvWriteLines
            (path_join bibcode_dir
               ("build_log_" ++ version_nodots ubuntu_version ++ "_fixed_"
                ++ Str.of_nat (retry_count st + 1) ++ ".txt"))
            (last_n 200 l)
       :: tr)
      st'.


Definition image_tag_of (bibcode ubuntu_version : string) : string :=
  Str.map sanitize_char bibcode ++ ":" ++ Str.remove_char "." ubuntu_version.

Definition retries_note (n : nat) : string :=
  "Attempted fixes via LLM API, " ++ Str.of_nat n ++ " retries".

(** The events of the run-and-record step that follows the retry loop. *)
Inductive record_shape (bibcode base_version ubuntu_version image_tag : string)
          (st : attempt) (serial_no : Z) : list event -> Prop :=
| record_tests output p f pct :
    success st = true ->
    parse_test_results output = Ret (p, f, pct) ->
    record_shape bibcode base_version ubuntu_version image_tag st serial_no
      [EvRun image_tag;
       EvRow (MkRow serial_no bibcode base_version ubuntu_version p f pct "" "")]
| record_run_failed msg :
    success st = true ->
    record_shape bibcode base_version ubuntu_version image_tag st serial_no
      [EvRun image_tag;
       EvRow (MkRow serial_no bibcode base_version ubuntu_version
                    0 0 (PyInt 0) msg "")]
| record_build_failed msg :
    success st = false -> error_message st = Some msg ->
    record_shape bibcode base_version ubuntu_version image_tag st serial_no
      [EvRow (MkRow serial_no bibcode base_version ubuntu_version
                    0 0 (PyInt 0) (Str.drop_last 5 msg)
                    (retries_note (retry_count st)))].

(** The outcome and the events of the body of the loop over the Ubuntu
    versions. *)
Inductive version_shape (bibcode_dir bibcode base_version dockerfile_content
                         ubuntu_version : string) (serial_no : Z)
  : result Z -> list event -> Prop :=
| version_raise e :
    update_dockerfile_content dockerfile_content ubuntu_version = Raise e ->
    version_shape bibcode_dir bibcode base_version dockerfile_content
      ubuntu_version serial_no (Raise e) []
| version_blank u :
    update_dockerfile_content dockerfile_content ubuntu_version = Ret u ->
    Str.strip u = "" ->
    version_shape bibcode_dir bibcode base_version dockerfile_content
      ubuntu_version serial_no (Ret serial_no) []
| version_unwritten u :
    update_dockerfile_content dockerfile_content ubuntu_version = Ret u ->
    version_shape bibcode_dir bibcode base_version dockerfile_content
      ubuntu_version serial_no (Ret serial_no)
      [EvWriteFile (path_join bibcode_dir ("Dockerfile_" ++ ubuntu_version)) u]
| version_built u s e l tr1 st' tr2 :
    update_dockerfile_content dockerfile_content ubuntu_version = Ret u ->
    loop_shape bibcode_dir ubuntu_version u
      (image_tag_of bibcode ubuntu_version) (MkAttempt s e l 0) tr1 st' ->
    record_shape bibcode base_version ubuntu_version
      (image_tag_of bibcode ubuntu_version) st' serial_no tr2 ->
    version_shape bibcode_dir bibcode base_version dockerfile_content
      ubuntu_version serial_no (Ret (serial_no + 1)%Z)
      (EvWriteFile (path_join bibcode_dir ("Dockerfile_" ++ ubuntu_version)) u
       :: EvBuild ("Dockerfile_" ++ ubuntu_version)
                  (image_tag_of bibcode ubuntu_version) bibcode_dir s l
       :: EvWriteLines
            (path_join bibcode_dir
               ("build_log_" ++ version_nodots ubuntu_version ++ ".txt"))
            (last_n 200 l)
       :: tr1 ++ tr2)%list.


(** Every build event is directly followed by the write of its log file,
    which holds the last 200 entries of the build log, and no log file is
    written otherwise. *)
Fixpoint log_writes_bounded (tr : list event) : Prop :=
  match tr with
  | [] => True
  | EvBuild _ _ _ _ logs :: tr' =>
      match tr' with
      | EvWriteLines _ lines :: tr'' =>
          lines = last_n 200 logs /\ List.length lines <= 200
          /\ log_writes_bounded tr''
      | _ => False
      end
  | EvWriteLines _ _ :: _ => False
  | _ :: tr' => log_writes_bounded tr'
  end.

(** The numbers [s], [s + 1], ... in this order. *)
Fixpoint consecutive (s : Z) (l : list Z) : Prop :=
  match l with
  | [] => True
  | x :: l' => x = s /\ consecutive (s + 1)%Z l'
  end.

Definition serials (tr : list event) : list Z := map serial (rows tr).


(** The sanitisation as the specification words it: every character that is
    not alphanumeric becomes an underscore, then the result is lower-cased. *)
Definition spec_sanitize (tag : string) : string :=
  Str.lower (Str.map (fun c => if Chars.is_alnum c then c else "_"%char) tag).


(** The answers of the repair service that carry no usable content. *)
Inductive unusable : http_outcome -> Prop :=
| unusable_raised e : unusable (PostRaised e)
| unusable_status code text body :
    code <> 200%Z -> unusable (Response code text body)
| unusable_undecoded text e : unusable (Response 200 text (Raise e))
| unusable_error text d v :
    dict_get "error" d = Some v ->
    unusable (Response 200 text (Ret (JObject d)))
| unusable_missing text d rest :
    dict_get "generated_text" d = None ->
    unusable (Response 200 text (Ret (JArray (JObject d :: rest))))
| unusable_empty text d rest s :
    dict_get "generated_text" d = Some (JString s) -> Str.strip s = ""%string ->
    unusable (Response 200 text (Ret (JArray (JObject d :: rest)))).

(** The rows recorded from serial number [s] on, and the serial number
    handed on. *)
Definition ticks {W} (s : Z) (x : result Z * W * list event) : Prop :=
  consecutive s (serials (trace x))
  /\ forall s', outcome x = Ret s' ->
                s' = (s + Z.of_nat (List.length (serials (trace x))))%Z.

(** ** Scenarios *)

Module Scenario.
Import Scripted.

Definition base_dockerfile : string := "FROM ubuntu:18.04" ++ LF ++ "RUN make".

Definition variant_0 : string := "FROM ubuntu:20.04" ++ LF ++ "RUN make".

Definition fixed_1 : string :=
  "FROM ubuntu:20.04" ++ LF ++ "RUN apt-get install -y pkg && make".

Definition answer (text : string) : http_outcome :=
  Response 200 "" (Ret (JArray [JObject [("generated_text", JString text)]])).

(** Scenario B: the first build fails and the repair service is down. *)
Definition service_down : world :=
  MkWorld ["A1"] [("./A1/Dockerfile", base_dockerfile)]
          [BuildError [Some ("missing pkg" ++ LF)]] [] [].

(** Two failing builds in a row, with a repaired Dockerfile in between. *)
Definition two_failures : world :=
  MkWorld ["A1"] [("./A1/Dockerfile", base_dockerfile)]
          [BuildError [Some ("missing pkg" ++ LF)];
           BuildError [Some ("make: not found" ++ LF)];
           BuildOk [Some ("done" ++ LF)]]
          [answer fixed_1; answer fixed_1]
          [RunOk "Tests Passed: 3"].

(** An artifact whose Dockerfile names no Ubuntu base image. *)
Definition no_base : world :=
  MkWorld ["A1"] [("./A1/Dockerfile", "FROM debian:12" ++ LF ++ "RUN make")]
          [] [] [].

End Scenario.

(* ------------------------------------------------------------------ *)
(** ** Vocabulary of the further properties *)

(** A [FROM ubuntu:] directive starts the text [s]. *)
Definition directive_here (s : string) : Prop :=
  exists ws a t, from_shape s ws a t.

(** The characters of a sanitised tag. *)
Definition tag_char (c : ascii) : bool :=
  (Chars.is_lower c || Chars.is_digit c
   || Ascii.eqb c "_" || Ascii.eqb c "." || Ascii.eqb c "-")%bool.

(** The text [d] occurs in the text [s]. *)
Definition occurs (d s : string) : Prop := exists a b, s = a ++ d ++ b.

Local Open Scope list_scope.

(** The answer of the repair service from which the client takes the
    generated text [s]. *)
Definition answers_with (o : http_outcome) (s : string) : Prop :=
  exists text d rest,
    o = Response 200 text (Ret (JArray (JObject d :: rest)))
    /\ existsb (is_str "error") rest = false
    /\ dict_get "generated_text" d = Some (JString s).

(** More projections of a trace: the Dockerfile names and the success flags
    of the builds, and the image tags of the container runs. *)
Fixpoint build_names (tr : list event) : list string :=
  match tr with
  | [] => []
  | EvBuild name _ _ _ _ :: tr' => name :: build_names tr'
  | _ :: tr' => build_names tr'
  end.

Fixpoint build_flags (tr : list event) : list bool :=
  match tr with
  | [] => []
  | EvBuild _ _ _ ok _ :: tr' => ok :: build_flags tr'
  | _ :: tr' => build_flags tr'
  end.

Fixpoint container_runs (tr : list event) : list string :=
  match tr with
  | [] => []
  | EvRun tag :: tr' => tag :: container_runs tr'
  | _ :: tr' => container_runs tr'
  end.

(** The name of the [k]-th repaired Dockerfile. *)
Definition fixed_dockerfile_name (ubuntu_version : string) (k : nat) : string :=
  ("Dockerfile_" ++ ubuntu_version ++ "_fixed_" ++ Str.of_nat k)%string.

(** Every repair call carries the joined last 200 entries of the log of the
    build before it; [cur] is the log of the latest build so far. *)
Fixpoint repair_logs_follow (cur : list string) (tr : list event) : Prop :=
  match tr with
  | [] => True
  | EvBuild _ _ _ _ logs :: tr' => repair_logs_follow logs tr'
  | EvRepair _ error_logs :: tr' =>
      error_logs = Str.join (last_n 200 cur) /\ repair_logs_follow cur tr'
  | _ :: tr' => repair_logs_follow cur tr'
  end.

(** What a pair that reached its first build leaves in the trace: [k]
    rebuilds, the flag of the last build, and the row. *)
Record pair_summary (bibcode ubuntu_version : string) (tr : list event)
       (k : nat) (final : bool) (r : row) : Prop := MkSummary {
  sum_bound : k <= max_retries;
  sum_names :
    build_names tr
    = ("Dockerfile_" ++ ubuntu_version)%string
      :: map (fixed_dockerfile_name ubuntu_version) (seq 1 k);
  sum_flags : build_flags tr = repeat false k ++ [final];
  sum_runs :
    container_runs tr = if final then [image_tag_of bibcode ubuntu_version] else [];
  sum_rows : rows tr = [r];
  sum_repairs_lower : k <= List.length (repairs tr);
  sum_repairs_upper : List.length (repairs tr) <= k + 1;
  sum_repairs_success : final = true -> List.length (repairs tr) = k;
  sum_failure :
    final = false ->
    modifications r = retries_note k /\ cases_passed r = 0%Z
    /\ cases_failed r = 0%Z /\ pass_percentage r = PyInt 0;
  sum_success : final = true -> modifications r = ""%string
}.

(** [a] is [b] with some elements left out. *)
Inductive subseq {A : Type} : list A -> list A -> Prop :=
| subseq_nil : subseq [] []
| subseq_skip x a b : subseq a b -> subseq a (x :: b)
| subseq_keep x a b : subseq a b -> subseq (x :: a) (x :: b).

(** Every build is directly preceded by the write of the Dockerfile it
    names, in its build context; [prev] is the path of the write that came
    just before, if any. *)
Fixpoint builds_follow_writes (prev : option string) (tr : list event) : Prop :=
  match tr with
  | [] => True
  | EvWriteFile path _ :: tr' => builds_follow_writes (Some path) tr'
  | EvBuild dockerfile_name _ build_context _ _ :: tr' =>
      prev = Some (path_join build_context dockerfile_name)
      /\ builds_follow_writes None tr'
  | _ :: tr' => builds_follow_writes None tr'
  end.

Local Open Scope string_scope.

(* ------------------------------------------------------------------ *)
(** * Properties *)

(** ** Strings *)

Module StrFacts.

Lemma append_nil_r (s : string) : s ++ "" = s.
Proof. induction s; simpl; congruence. Qed.

Lemma append_assoc (a b c : string) : (a ++ b) ++ c = a ++ b ++ c.
Proof. induction a; simpl; congruence. Qed.

Lemma append_length (a b : string) : length (a ++ b) = length a + length b.
Proof. induction a; simpl; congruence. Qed.

Lemma skip_append (a b : string) : Str.skip (length a) (a ++ b) = b.
Proof. induction a; simpl; auto. Qed.

Lemma take_append (a b : string) : Str.take (length a) (a ++ b) = a.
Proof. induction a; simpl; congruence. Qed.

Lemma take_skip (n : nat) (s : string) : Str.take n s ++ Str.skip n s = s.
Proof.
  revert s; induction n; intros [|c s]; simpl; auto.
  now rewrite IHn.
Qed.

Lemma take_length (n : nat) (s : string) :
  n <= length s -> length (Str.take n s) = n.
Proof.
  revert s; induction n; intros [|c s]; simpl; intros; auto; try lia.
  rewrite IHn; lia.
Qed.

Lemma forallb_append (p : ascii -> bool) (a b : string) :
  Str.forallb p (a ++ b) = (Str.forallb p a && Str.forallb p b)%bool.
Proof. induction a; simpl; auto. now rewrite IHa, andb_assoc. Qed.

Lemma existsb_append (p : ascii -> bool) (a b : string) :
  Str.existsb p (a ++ b) = (Str.existsb p a || Str.existsb p b)%bool.
Proof. induction a; simpl; auto. now rewrite IHa, orb_assoc. Qed.

End StrFacts.

(** ** The matcher *)

Module ReFacts.
Import StrFacts.

(** Literal items consume exactly their text. *)
Lemma run_lit_app (a : string) (pat : pattern) n s o g :
  run (lit a ++ pat)%list n (a ++ s) o g = run pat (n + length a) s o g.
Proof.
  revert n; induction a as [|c a IH]; intros n; simpl.
  - f_equal; lia.
  - rewrite Ascii.eqb_refl, IH. f_equal; lia.
Qed.

Lemma run_lit_inv (a : string) (pat : pattern) n s o g sp :
  run (lit a ++ pat)%list n s o g = Some sp ->
  exists s', s = a ++ s' /\ run pat (n + length a) s' o g = Some sp.
Proof.
  revert n s; induction a as [|c a IH]; intros n s H; simpl in *.
  - exists s. split; auto. now replace (n + 0) with n by lia.
  - destruct s as [|c' s]; [discriminate|].
    destruct (Ascii.eqb c c') eqn:E; [|discriminate].
    apply Ascii.eqb_eq in E; subst c'.
    destruct (IH _ _ H) as (s' & -> & H').
    exists s'. split; auto. now replace (n + S (length a)) with (S n + length a) by lia.
Qed.

(** A successful repetition splits the subject. *)
Lemma star_inv p k n s sp :
  star p k n s = Some sp ->
  exists a b, s = a ++ b /\ Str.forallb p a = true
              /\ k (n + length a) b = Some sp.
Proof.
  revert n; induction s as [|c s IH]; intros n H; simpl in H.
  - exists "", "". simpl. now replace (n + 0) with n by lia.
  - destruct (p c) eqn:Pc.
    + destruct (star p k (S n) s) eqn:E.
      * inversion H; subst. destruct (IH _ E) as (a & b & -> & Ha & Hk).
        exists (String c a), b. simpl. rewrite Pc, Ha. repeat split; auto.
        now replace (n + S (length a)) with (S n + length a) by lia.
      * exists "", (String c s). simpl. now replace (n + 0) with n by lia.
    + exists "", (String c s). simpl. now replace (n + 0) with n by lia.
Qed.

(** The repetition succeeds as soon as the rest of the pattern accepts
    the subject as it stands. *)
Lemma star_some p k n s sp :
  k n s = Some sp -> star p k n s <> None.
Proof.
  intros Hk. destruct s as [|c s]; simpl; [congruence|].
  destruct (p c); [|congruence].
  destruct (star p k (S n) s); congruence.
Qed.

(** The longest repetition is tried first. *)
Lemma star_longest p k n a b sp :
  Str.forallb p a = true ->
  k (n + length a) b = Some sp ->
  star p k n (a ++ b) = star p k (n + length a) b.
Proof.
  revert n; induction a as [|c a IH]; intros n Ha Hk; simpl in *.
  - now replace (n + 0) with n by lia.
  - apply andb_prop in Ha as [Pc Ha]. rewrite Pc.
    replace (n + S (length a)) with (S n + length a) in * by lia.
    rewrite (IH (S n) Ha Hk).
    pose proof (star_some p k _ _ _ Hk) as Hs.
    destruct (star p k (S n + length a) b); congruence.
Qed.

Lemma star_stop p k n s :
  stops p s = true -> star p k n s = k n s.
Proof.
  destruct s as [|c s]; simpl; auto.
  intros H. now destruct (p c).
Qed.

(** When the rest of the pattern refuses every subject that starts in the
    class, the repetition never gives a character back. *)
Lemma star_commit p k n a b :
  (forall n' c s', p c = true -> k n' (String c s') = None) ->
  Str.forallb p a = true -> stops p b = true ->
  star p k n (a ++ b) = k (n + length a) b.
Proof.
  intros Hk. revert n; induction a as [|c a IH]; intros n Ha Hb; simpl in *.
  - replace (n + 0) with n by lia. now apply star_stop.
  - apply andb_prop in Ha as [Pc Ha]. rewrite Pc, (IH (S n) Ha Hb).
    replace (n + S (length a)) with (S n + length a) by lia.
    destruct (k (S n + length a) b); auto.
Qed.

End ReFacts.

Module FromLine.
Import StrFacts ReFacts.

Lemma take_drop_while p s : take_while p s ++ Str.drop_while p s = s.
Proof. induction s as [|c s IH]; simpl; auto. destruct (p c); simpl; congruence. Qed.

Lemma take_while_all p s : Str.forallb p (take_while p s) = true.
Proof. induction s as [|c s IH]; simpl; auto. destruct (p c) eqn:E; simpl; auto. now rewrite E. Qed.

Lemma drop_while_stops p s : stops p (Str.drop_while p s) = true.
Proof. induction s as [|c s IH]; simpl; auto. destruct (p c) eqn:E; simpl; auto. now rewrite E. Qed.

Lemma take_while_app p a b :
  Str.forallb p a = true -> stops p b = true -> take_while p (a ++ b) = a.
Proof.
  induction a as [|c a IH]; simpl.
  - destruct b; simpl; auto. intros _ H. now destruct (p a).
  - intros H Hb. apply andb_prop in H as [-> H]. now rewrite IH.
Qed.

Lemma drop_while_app p a b :
  Str.forallb p a = true -> stops p b = true -> Str.drop_while p (a ++ b) = b.
Proof.
  induction a as [|c a IH]; simpl.
  - destruct b; simpl; auto. intros _ H. now destruct (p a).
  - intros H Hb. apply andb_prop in H as [-> H]. now rewrite IH.
Qed.

(** With a rest of the pattern that always accepts, the repetition takes
    the whole run of the class. *)
Lemma star_max p k n s :
  (forall n' s', k n' s' <> None) ->
  star p k n s = k (n + length (take_while p s)) (Str.drop_while p s).
Proof.
  intros Hk. revert n; induction s as [|c s IH]; intros n; simpl.
  - f_equal; lia.
  - destruct (p c) eqn:E; simpl.
    + rewrite IH. replace (n + S (length (take_while p s))) with (S n + length (take_while p s)) by lia.
      destruct (k (S n + length (take_while p s)) (Str.drop_while p s)) eqn:F; auto.
      now apply Hk in F.
    + f_equal; lia.
Qed.

Lemma space_not_u c : Chars.is_space c = true -> Ascii.eqb "u" c = false.
Proof.
  intros H. destruct (Ascii.eqb "u" c) eqn:E; auto.
  apply Ascii.eqb_eq in E; subst c. discriminate.
Qed.

Lemma space_not_F c : Chars.is_space c = true -> Ascii.eqb "F" c = false.
Proof.
  intros H. destruct (Ascii.eqb "F" c) eqn:E; auto.
  apply Ascii.eqb_eq in E; subst c. discriminate.
Qed.

Lemma run_from_prefix tail ws y o g :
  ws <> "" -> Str.forallb Chars.is_space ws = true ->
  run (from_prefix tail) 0 ("FROM" ++ ws ++ "ubuntu:" ++ y) o g
  = run tail (11 + length ws) y o g.
Proof.
  intros Hne Hws. unfold from_prefix.
  rewrite (run_lit_app "FROM").
  destruct ws as [|w ws]; [congruence|].
  simpl in Hws. apply andb_prop in Hws as [Hw Hws].
  cbn [app run String.append]. rewrite Hw.
  rewrite (star_commit Chars.is_space _ (S (0 + length "FROM")) ws ("ubuntu:" ++ y)); auto.
  intros n' c s' Hc. cbn [lit app run]. now rewrite (space_not_u _ Hc).
Qed.

Lemma run_from_prefix_inv tail s o g sp :
  run (from_prefix tail) 0 s o g = Some sp ->
  exists ws y, s = "FROM" ++ ws ++ "ubuntu:" ++ y /\ ws <> ""
               /\ Str.forallb Chars.is_space ws = true
               /\ run tail (11 + length ws) y o g = Some sp.
Proof.
  unfold from_prefix. intros H.
  apply run_lit_inv in H as (s1 & -> & H).
  cbn [app run] in H.
  destruct s1 as [|w s1]; [discriminate|].
  destruct (Chars.is_space w) eqn:Hw; [|discriminate].
  apply star_inv in H as (a & b & -> & Ha & H).
  apply run_lit_inv in H as (y & -> & H).
  exists (String w a), y. repeat split.
  - discriminate.
  - simpl. now rewrite Hw, Ha.
  - rewrite <- H. f_equal. simpl. lia.
Qed.

Lemma run_token n y o g :
  run [Plus Chars.is_nonspace] n y o g
  = match y with
    | String a _ =>
        if Chars.is_nonspace a
        then Some (MkSpan (n + length (take_while Chars.is_nonspace y)) o g)
        else None
    | EmptyString => None
    end.
Proof.
  destruct y as [|a t]; simpl; auto.
  destruct (Chars.is_nonspace a) eqn:E; auto.
  rewrite star_max by (intros; discriminate).
  cbn [length]. do 2 f_equal. lia.
Qed.

Lemma run_token_group n y o g :
  run [Open; Plus Chars.is_nonspace; Close] n y o g
  = match y with
    | String a _ =>
        if Chars.is_nonspace a
        then let e := n + length (take_while Chars.is_nonspace y) in
             Some (MkSpan e (Some n) (Some (n, e)))
        else None
    | EmptyString => None
    end.
Proof.
  destruct y as [|a t]; simpl; auto.
  destruct (Chars.is_nonspace a) eqn:E; auto.
  rewrite star_max by (intros; discriminate).
  cbn [run length]. do 2 f_equal; try lia. do 2 f_equal; lia.
Qed.

Lemma from_line_pattern_eq : from_line_pattern = from_prefix [Plus Chars.is_nonspace].
Proof. reflexivity. Qed.

Lemma base_version_pattern_eq :
  base_version_pattern = from_prefix [Open; Plus Chars.is_nonspace; Close].
Proof. reflexivity. Qed.

Lemma from_line_match s ws a t :
  from_shape s ws a t ->
  match_here from_line_pattern s
  = Some (MkSpan (11 + length ws + length (take_while Chars.is_nonspace (String a t)))
                 None None).
Proof.
  intros (-> & Hne & Hws & Ha). unfold match_here.
  rewrite from_line_pattern_eq, run_from_prefix, run_token by auto.
  now rewrite Ha.
Qed.

Lemma base_version_match s ws a t :
  from_shape s ws a t ->
  match_here base_version_pattern s
  = Some (MkSpan (11 + length ws + length (take_while Chars.is_nonspace (String a t)))
                 (Some (11 + length ws))
                 (Some (11 + length ws,
                        11 + length ws
                        + length (take_while Chars.is_nonspace (String a t))))).
Proof.
  intros (-> & Hne & Hws & Ha). unfold match_here.
  rewrite base_version_pattern_eq, run_from_prefix, run_token_group by auto.
  now rewrite Ha.
Qed.

Lemma from_line_match_inv s sp :
  match_here from_line_pattern s = Some sp ->
  exists ws a t, from_shape s ws a t.
Proof.
  unfold match_here. rewrite from_line_pattern_eq. intros H.
  apply run_from_prefix_inv in H as (ws & y & -> & Hne & Hws & H).
  rewrite run_token in H. destruct y as [|a t]; [discriminate|].
  destruct (Chars.is_nonspace a) eqn:Ha; [|discriminate].
  exists ws, a, t. repeat split; auto.
Qed.

Lemma base_version_match_inv s sp :
  match_here base_version_pattern s = Some sp ->
  exists ws a t, from_shape s ws a t.
Proof.
  unfold match_here. rewrite base_version_pattern_eq. intros H.
  apply run_from_prefix_inv in H as (ws & y & -> & Hne & Hws & H).
  rewrite run_token_group in H. destruct y as [|a t]; [discriminate|].
  destruct (Chars.is_nonspace a) eqn:Ha; [|discriminate].
  exists ws, a, t. repeat split; auto.
Qed.

End FromLine.

Module RoundTrip.
Import StrFacts ReFacts FromLine.

Lemma sub_scan_pending pat tl n s :
  n <= length s -> sub_scan pat tl s n = sub_scan pat tl (Str.skip n s) 0.
Proof.
  revert s; induction n as [|n IH]; intros s Hn.
  - now destruct s.
  - destruct s as [|c s]; simpl in Hn; [lia|].
    cbn [sub_scan Str.skip]. apply IH. lia.
Qed.

Lemma search_from_here pat i s sp :
  match_here pat s = Some sp -> search_from pat i s = Some (MkMatch i s sp).
Proof. intros H. destruct s; cbn [search_from]; now rewrite H. Qed.

Lemma search_from_later pat i c s :
  match_here pat (String c s) = None ->
  search_from pat i (String c s) = search_from pat (S i) s.
Proof. intros H. cbn [search_from]. now rewrite H. Qed.

Section Version.

Variable v : string.

Local Abbreviation U := (U v).


Lemma U_nomatch c s :
  match_here from_line_pattern (String c s) = None ->
  U (String c s) = String c (U s).
Proof. unfold U. cbn [sub_scan]. now intros ->. Qed.

Lemma U_empty : U "" = "".
Proof. reflexivity. Qed.

Lemma U_match s ws a t :
  from_shape s ws a t ->
  U s = "FROM" ++ " " ++ "ubuntu:" ++ v
        ++ U (Str.drop_while Chars.is_nonspace (String a t)).
Proof.
  intros Hs. pose proof (from_line_match _ _ _ _ Hs) as Hm.
  destruct Hs as (-> & Hne & Hws & Ha).
  unfold U at 1.
  set (tok := take_while Chars.is_nonspace (String a t)) in *.
  set (rest := Str.drop_while Chars.is_nonspace (String a t)).
  assert (Hsplit : "FROM" ++ ws ++ "ubuntu:" ++ String a t
                   = ("FROM" ++ ws ++ "ubuntu:" ++ tok) ++ rest).
  { rewrite !append_assoc. do 3 f_equal. symmetry. apply take_drop_while. }
  assert (Hlen : length ("FROM" ++ ws ++ "ubuntu:" ++ tok)
                 = 11 + length ws + length tok).
  { rewrite !append_length. simpl. lia. }
  remember ("FROM" ++ ws ++ "ubuntu:" ++ String a t) as s eqn:Es.
  destruct s as [|c s]; [discriminate|].
  cbn [sub_scan]. rewrite Hm. cbn [m_end expand].
  replace (11 + length ws + length tok) with (S (10 + length ws + length tok)) by lia.
  rewrite sub_scan_pending.
  - change (Str.skip (10 + length ws + length tok) s)
      with (Str.skip (S (10 + length ws + length tok)) (String c s)).
    replace (S (10 + length ws + length tok))
      with (length ("FROM" ++ ws ++ "ubuntu:" ++ tok)) by lia.
    rewrite Hsplit, skip_append, append_nil_r, append_assoc. reflexivity.
  - assert (length (String c s) = length ("FROM" ++ ws ++ "ubuntu:" ++ tok) + length rest)
      by (rewrite Hsplit, append_length; reflexivity).
    rewrite Hlen in H. cbn [length] in H. lia.
Qed.

Lemma match_here_space c s pat' :
  Chars.is_space c = true ->
  match_here (from_prefix pat') (String c s) = None.
Proof.
  intros Hc. unfold match_here, from_prefix. cbn [lit app run].
  now rewrite (space_not_F _ Hc).
Qed.

Lemma U_stops s :
  stops Chars.is_nonspace s = true -> stops Chars.is_nonspace (U s) = true.
Proof.
  destruct s as [|c s]; auto. simpl. intros Hc.
  rewrite U_nomatch; auto.
  rewrite from_line_pattern_eq. apply match_here_space.
  unfold Chars.is_nonspace in Hc. now destruct (Chars.is_space c).
Qed.

Lemma agree_U s : agree (U s) s.
Proof.
  induction s as [|c s IH].
  - constructor.
  - destruct (match_here from_line_pattern (String c s)) as [sp|] eqn:E.
    + destruct (from_line_match_inv _ _ E) as (ws & a & t & Hs).
      rewrite (U_match _ _ _ _ Hs).
      destruct Hs as (-> & Hne & Hws & Ha).
      destruct ws as [|w ws]; [congruence|].
      simpl in Hws. apply andb_prop in Hws as [Hw _].
      apply (agree_from " " w); auto.
    + rewrite U_nomatch by auto. now constructor.
Qed.

Lemma agree_prefix p a t y :
  Str.forallb not_F p = true ->
  agree (p ++ String a t) y -> exists t', y = p ++ String a t'.
Proof.
  revert y; induction p as [|c p IH]; intros y Hp H.
  - simpl in *. inversion H; subst; eexists; reflexivity.
  - simpl in Hp. apply andb_prop in Hp as [Hc Hp].
    cbn [String.append] in H. inversion H; subst.
    + eexists; reflexivity.
    + discriminate.
    + destruct (IH _ Hp H3) as (t' & ->). eexists; reflexivity.
Qed.

Lemma space_all_not_F ws :
  Str.forallb Chars.is_space ws = true -> Str.forallb not_F ws = true.
Proof.
  induction ws as [|c ws IH]; simpl; auto.
  intros H. apply andb_prop in H as [Hc H]. rewrite (IH H), andb_true_r.
  unfold not_F. destruct (Ascii.eqb c "F") eqn:E; auto.
  apply Ascii.eqb_eq in E. subst. discriminate.
Qed.

Lemma shape_transfer c x y :
  agree x y ->
  (exists ws a t, from_shape (String c x) ws a t) ->
  exists ws a t, from_shape (String c y) ws a t.
Proof.
  intros Hag (ws & a & t & Hs & Hne & Hws & Ha).
  cbn [String.append] in Hs. injection Hs as -> Hx.
  assert (Hp : Str.forallb not_F ("ROM" ++ ws ++ "ubuntu:") = true).
  { rewrite !forallb_append, (space_all_not_F _ Hws). reflexivity. }
  assert (Hx' : x = ("ROM" ++ ws ++ "ubuntu:") ++ String a t).
  { rewrite Hx, !append_assoc. reflexivity. }
  rewrite Hx' in Hag.
  destruct (agree_prefix _ _ _ _ Hp Hag) as (t' & ->).
  exists ws, a, t'. repeat split; auto.
  rewrite !append_assoc. reflexivity.
Qed.

Hypothesis v_nonempty : v <> "".
Hypothesis v_nonspace : Str.forallb Chars.is_nonspace v = true.

Lemma search_U_match s ws a t i :
  from_shape s ws a t ->
  exists m, search_from base_version_pattern i (U s) = Some m
            /\ group1 m = Some v.
Proof.
  intros Hs. rewrite (U_match _ _ _ _ Hs).
  set (rest := U (Str.drop_while Chars.is_nonspace (String a t))).
  assert (Hrest : stops Chars.is_nonspace rest = true)
    by apply U_stops, drop_while_stops.
  destruct v as [|a0 v0] eqn:Ev; [congruence|].
  simpl in v_nonspace. apply andb_prop in v_nonspace as [Ha0 Hv0].
  assert (Hshape : from_shape ("FROM" ++ " " ++ "ubuntu:" ++ String a0 v0 ++ rest)
                              " " a0 (v0 ++ rest)).
  { repeat split; auto. discriminate. }
  pose proof (base_version_match _ _ _ _ Hshape) as Hm.
  assert (Htok : take_while Chars.is_nonspace (String a0 (v0 ++ rest)) = String a0 v0).
  { apply (take_while_app Chars.is_nonspace (String a0 v0) rest); auto.
    simpl. now rewrite Ha0. }
  rewrite Htok in Hm.
  eexists. split.
  - apply search_from_here, Hm.
  - unfold group1. cbn [m_span m_group m_subject].
    replace (11 + length " " + length (String a0 v0) - (11 + length " "))
      with (length (String a0 v0)) by lia.
    change (Str.skip (11 + length " ") ("FROM" ++ " " ++ "ubuntu:" ++ String a0 v0 ++ rest))
      with (String a0 v0 ++ rest).
    now rewrite take_append.
Qed.

Lemma search_U s i j :
  search_from base_version_pattern i s <> None ->
  exists m, search_from base_version_pattern j (U s) = Some m
            /\ group1 m = Some v.
Proof.
  revert i j; induction s as [|c s IH]; intros i j H.
  - exfalso. apply H. reflexivity.
  - destruct (match_here base_version_pattern (String c s)) as [sp|] eqn:E.
    + destruct (base_version_match_inv _ _ E) as (ws & a & t & Hs).
      apply (search_U_match _ _ _ _ j Hs).
    + rewrite (search_from_later _ _ _ _ E) in H.
      destruct (IH _ (S j) H) as (m & Hm & Hg).
      assert (En : match_here from_line_pattern (String c s) = None).
      { destruct (match_here from_line_pattern (String c s)) eqn:F; auto.
        destruct (from_line_match_inv _ _ F) as (ws & a & t & Hs).
        rewrite (base_version_match _ _ _ _ Hs) in E. discriminate. }
      rewrite (U_nomatch _ _ En).
      assert (Eu : match_here base_version_pattern (String c (U s)) = None).
      { destruct (match_here base_version_pattern (String c (U s))) eqn:F; auto.
        apply base_version_match_inv in F.
        apply (shape_transfer c _ s (agree_U s)) in F as (ws & a & t & Hs).
        rewrite (from_line_match _ _ _ _ Hs) in En. discriminate. }
      exists m. rewrite (search_from_later _ _ _ _ Eu). auto.
Qed.

End Version.

End RoundTrip.

Import StrFacts ReFacts FromLine RoundTrip.

(** ** Binary64 quotients *)

Module FloatFacts.

Local Open Scope Z_scope.

Lemma digits2_pos_size p : digits2_pos p = Pos.size p.
Proof. induction p; simpl; congruence. Qed.

Lemma Zdigits2_log2 p : Zdigits2 (Zpos p) = Z.log2 (Zpos p) + 1.
Proof.
  unfold Zdigits2. rewrite digits2_pos_size.
  destruct p; simpl; rewrite ?Pos2Z.inj_succ; lia.
Qed.

Lemma Zdigits2_nonneg m : 0 <= Zdigits2 m.
Proof. destruct m; simpl; lia. Qed.

Lemma Zdigits2_mono a b : 0 <= a <= b -> Zdigits2 a <= Zdigits2 b.
Proof.
  intros [Ha Hab]. destruct a as [|pa|pa]; try lia.
  - apply Zdigits2_nonneg.
  - destruct b as [|pb|pb]; try lia.
    rewrite !Zdigits2_log2. apply Z.add_le_mono_r, Z.log2_le_mono. lia.
Qed.

Lemma Zdigits2_pow2 m k : 0 <= k -> 0 <= m <= 2 ^ k -> Zdigits2 m <= k + 1.
Proof.
  intros Hk [Hm Hmk]. destruct m as [|p|p]; try lia.
  - simpl. lia.
  - rewrite Zdigits2_log2. apply Z.add_le_mono_r.
    rewrite <- (Z.log2_pow2 k Hk). now apply Z.log2_le_mono.
Qed.

Lemma Zdigits2_succ m : 0 <= m -> Zdigits2 (m + 1) <= Zdigits2 m + 1.
Proof.
  intros Hm. destruct m as [|p|p]; try lia.
  - simpl. lia.
  - replace (Z.pos p + 1) with (Z.pos (p + 1)) by lia.
    rewrite !Zdigits2_log2.
    replace (Z.pos (p + 1)) with (Z.succ (Z.pos p)) by lia.
    pose proof (Z.log2_succ_le (Z.pos p)). lia.
Qed.

Lemma shr_1_le mrs :
  0 <= shr_m mrs -> 0 <= shr_m (shr_1 mrs) <= shr_m mrs.
Proof.
  destruct mrs as [m r s]. simpl. destruct m as [|[p|p|]|[p|p|]]; simpl; lia.
Qed.

Lemma iter_shr_1_le n mrs :
  0 <= shr_m mrs -> 0 <= shr_m (iter_pos shr_1 n mrs) <= shr_m mrs.
Proof.
  revert mrs; induction n as [n IH|n IH|]; intros mrs H; simpl.
  - pose proof (shr_1_le mrs H) as H1.
    pose proof (IH _ (proj1 H1)) as H2.
    pose proof (IH _ (proj1 H2)) as H3. lia.
  - pose proof (IH _ H) as H2.
    pose proof (IH _ (proj1 H2)) as H3. lia.
  - now apply shr_1_le.
Qed.

Lemma shr_record_of_loc_m m l : shr_m (shr_record_of_loc m l) = m.
Proof. destruct l as [|[]]; reflexivity. Qed.

Lemma shr_fexp_spec m e l :
  0 <= m ->
  let r := shr_fexp prec emax m e l in
  0 <= shr_m (fst r) <= m
  /\ snd r = Z.max e (fexp prec emax (Zdigits2 m + e)).
Proof.
  intros Hm. unfold shr_fexp, shr.
  destruct (fexp prec emax (Zdigits2 m + e) - e) as [|p|p] eqn:E; simpl.
  - rewrite shr_record_of_loc_m. lia.
  - split; [|lia].
    pose proof (iter_shr_1_le p (shr_record_of_loc m l)) as H.
    rewrite shr_record_of_loc_m in H. auto.
  - rewrite shr_record_of_loc_m. lia.
Qed.

Lemma round_nearest_even_le m l :
  m <= round_nearest_even m l <= m + 1.
Proof. destruct l as [|[]]; simpl; try lia. destruct (Z.even m); lia. Qed.

(** A rounded value below [2 ^ 1024] is not an infinity. *)
Lemma binary_round_aux_finite sx mx ex lx s' :
  0 <= mx ->
  ex <= emax - prec ->
  Zdigits2 mx + 1 + Z.max ex (fexp prec emax (Zdigits2 mx + ex)) <= emax ->
  binary_round_aux prec emax sx mx ex lx <> S754_infinity s'.
Proof.
  intros Hm Hex Hd. unfold binary_round_aux.
  pose proof (shr_fexp_spec mx ex lx Hm) as H1.
  destruct (shr_fexp prec emax mx ex lx) as [mrs1 e1]. simpl in H1.
  destruct H1 as [Hm1 He1].
  pose proof (round_nearest_even_le (shr_m mrs1) (loc_of_shr_record mrs1)) as Hr.
  set (m2 := round_nearest_even (shr_m mrs1) (loc_of_shr_record mrs1)) in *.
  assert (Hm2 : 0 <= m2) by lia.
  pose proof (shr_fexp_spec m2 e1 loc_Exact Hm2) as H2.
  destruct (shr_fexp prec emax m2 e1 loc_Exact) as [mrs2 e2]. simpl in H2.
  destruct H2 as [Hm3 He2].
  destruct (shr_m mrs2) as [|p|p]; try discriminate.
  assert (Hd2 : Zdigits2 m2 <= Zdigits2 mx + 1).
  { transitivity (Zdigits2 (shr_m mrs1 + 1)).
    - apply Zdigits2_mono. lia.
    - transitivity (Zdigits2 (shr_m mrs1) + 1).
      + apply Zdigits2_succ. lia.
      + apply Z.add_le_mono_r, Zdigits2_mono. lia. }
  assert (He : e2 <= emax - prec).
  { subst e2 e1. unfold fexp, emin, emax, prec in *. lia. }
  apply Z.leb_le in He. rewrite He. discriminate.
Qed.

Lemma SFdiv_le_finite (a b : positive) s' :
  (a <= b)%positive ->
  SFdiv prec emax (S754_finite false a 0) (S754_finite false b 0)
  <> S754_infinity s'.
Proof.
  intros Hab. unfold SFdiv, SFdiv_core_binary.
  set (d1 := Zdigits2 (Z.pos a)). set (d2 := Zdigits2 (Z.pos b)).
  assert (Hd : d1 <= d2) by (apply Zdigits2_mono; lia).
  assert (Hd1 : 0 <= d1) by apply Zdigits2_nonneg.
  set (e' := Z.min (fexp prec emax (d1 + 0 - (d2 + 0))) (0 - 0)).
  assert (He' : - 1074 <= e' <= -53).
  { unfold e', fexp, emin, emax, prec. lia. }
  set (s := 0 - 0 - e').
  assert (Hs : 53 <= s <= 1074) by (unfold s; lia).
  destruct s as [|ps|ps] eqn:Es; try lia.
  rewrite Z.shiftl_mul_pow2 by lia.
  pose proof (Z.div_eucl_eq (Z.pos a * 2 ^ Z.pos ps) (Z.pos b) ltac:(lia)) as Hq.
  pose proof (Z.mod_pos_bound (Z.pos a * 2 ^ Z.pos ps) (Z.pos b) ltac:(lia)) as Hr.
  unfold Z.modulo in Hr.
  destruct (Z.div_eucl (Z.pos a * 2 ^ Z.pos ps) (Z.pos b)) as [q r].
  assert (Hp : 0 < 2 ^ Z.pos ps) by (apply Z.pow_pos_nonneg; lia).
  assert (Hq0 : 0 <= q) by nia.
  assert (Hq1 : q <= 2 ^ Z.pos ps) by nia.
  pose proof (Zdigits2_pow2 q (Z.pos ps) ltac:(lia) (conj Hq0 Hq1)) as Hdq.
  apply binary_round_aux_finite; auto.
  - unfold emax, prec. lia.
  - unfold fexp, emin, emax, prec in *. lia.
Qed.

Lemma int_true_div_le a b :
  0 <= a <= b -> 0 < b -> exists q, int_true_div a b = Ret q.
Proof.
  intros Ha Hb. unfold int_true_div.
  destruct b as [|pb|pb]; try lia.
  destruct a as [|pa|pa]; try lia.
  - eauto.
  - cbn [Z.ltb Z.compare Z.abs Z.to_pos].
    pose proof (fun s' => SFdiv_le_finite pa pb s' ltac:(lia)) as H.
    destruct (SFdiv prec emax (S754_finite false pa 0) (S754_finite false pb 0));
      eauto.
    now specialize (H s).
Qed.

End FloatFacts.

(** ** Version substitution and extraction *)

Lemma directive_found c i :
  has_from_directive c -> search_from base_version_pattern i c <> None.
Proof.
  intros (pre & ws & a & t & -> & Hne & Hws & Ha).
  revert i; induction pre as [|x pre IH]; intros i.
  - cbn [String.append].
    erewrite search_from_here; [discriminate|].
    apply base_version_match. repeat split; auto.
  - change (String x pre ++ "FROM" ++ ws ++ "ubuntu:" ++ String a t)
      with (String x (pre ++ "FROM" ++ ws ++ "ubuntu:" ++ String a t)).
    destruct (match_here base_version_pattern
                (String x (pre ++ "FROM" ++ ws ++ "ubuntu:" ++ String a t))) eqn:E.
    + erewrite search_from_here by eauto. discriminate.
    + rewrite (search_from_later _ _ _ _ E). apply IH.
Qed.

Lemma update_literal c v :
  no_backslash v ->
  update_dockerfile_content c v = Ret (U v c).
Proof.
  intros Hv. unfold update_dockerfile_content, sub, compile_template.
  rewrite existsb_append, Hv. reflexivity.
Qed.

(** C10 (amended).  For a Dockerfile text with a [FROM ubuntu:<token>]
    directive and a target version that is not empty and holds neither
    white space nor a backslash, the substitution succeeds and extracting
    the base version from its result gives the target version back. *)
Theorem update_then_extract (c v : string) :
  has_from_directive c ->
  v <> "" ->
  Str.forallb Chars.is_nonspace v = true ->
  no_backslash v ->
  exists u, update_dockerfile_content c v = Ret u
            /\ extract_base_version u = Some v.
Proof.
  intros Hc Hne Hv Hb. exists (U v c). split.
  - now apply update_literal.
  - unfold extract_base_version, search.
    destruct (search_U v Hne Hv c 0 0 (directive_found _ _ Hc)) as (m & -> & Hg).
    exact Hg.
Qed.

Lemma update_then_extract_witness :
  exists u,
    update_dockerfile_content ("FROM ubuntu:18.04" ++ LF ++ "RUN make") "20.04" = Ret u
    /\ extract_base_version u = Some "20.04".
Proof.
  apply update_then_extract.
  - exists "", " ", "1"%char, ("8.04" ++ LF ++ "RUN make").
    repeat split; try reflexivity. discriminate.
  - discriminate.
  - reflexivity.
  - reflexivity.
Defined.

(** C10 as stated fails for a version with a backslash: [re.sub] reads the
    replacement as a template, so the two backslashes of the version are
    written as one. *)
Lemma backslash_version_not_recovered :
  has_from_directive "FROM ubuntu:18.04"
  /\ "\\" <> ""
  /\ Str.forallb Chars.is_nonspace "\\" = true
  /\ exists u, update_dockerfile_content "FROM ubuntu:18.04" "\\" = Ret u
               /\ extract_base_version u <> Some "\\".
Proof.
  split; [|split; [|split]].
  - exists "", " ", "1"%char, "8.04". repeat split; try reflexivity. discriminate.
  - discriminate.
  - reflexivity.
  - eexists. split; [vm_compute; reflexivity|]. vm_compute. discriminate.
Qed.

Lemma sub_scan_class p s :
  sub_scan [Chr p] [TLit "_"] s 0
  = Str.map (fun c => if p c then "_"%char else c) s.
Proof.
  induction s as [|c s IH]; cbn [sub_scan match_here run Str.map]; auto.
  destruct (p c); cbn [m_end expand String.append]; now rewrite IH.
Qed.

Lemma map_map f g s : Str.map f (Str.map g s) = Str.map (fun c => f (g c)) s.
Proof. induction s; simpl; congruence. Qed.

Lemma sanitize_image_tag_eq tag :
  sanitize_image_tag tag = Ret (Str.map sanitize_char tag).
Proof.
  unfold sanitize_image_tag, sub.
  change (compile_template (groups [Chr tag_forbidden]) "_")
    with (@Ret (list piece) [TLit "_"]).
  cbv beta iota. rewrite sub_scan_class. unfold Str.lower. now rewrite map_map.
Qed.

(** ** Test results *)

Module CountFacts.

Lemma space_not_digit c : Chars.is_space c = true -> Chars.is_digit c = false.
Proof.
  destruct c as [b0 b1 b2 b3 b4 b5 b6 b7].
  destruct b0, b1, b2, b3, b4, b5, b6, b7; vm_compute; congruence.
Qed.

Lemma run_digits n y o g :
  run [Open; Plus Chars.is_digit; Close] n y o g
  = match y with
    | String a _ =>
        if Chars.is_digit a
        then let e := n + length (take_while Chars.is_digit y) in
             Some (MkSpan e (Some n) (Some (n, e)))
        else None
    | EmptyString => None
    end.
Proof.
  destruct y as [|a t]; simpl; auto.
  destruct (Chars.is_digit a) eqn:E; auto.
  rewrite star_max by (intros; discriminate).
  cbn [run length]. do 2 f_equal; try lia. do 2 f_equal; lia.
Qed.

Lemma run_star p pat' n s o g :
  run (Star p :: pat') n s o g = star p (fun n' s' => run pat' n' s' o g) n s.
Proof. reflexivity. Qed.

Lemma count_match marker s :
  count_here marker s -> match_here (count_pattern marker) s <> None.
Proof.
  intros (ws & d & t & -> & Hws & Hd).
  unfold match_here, count_pattern. rewrite (run_lit_app marker).
  rewrite run_star. rewrite (star_commit Chars.is_space _ _ ws (String d t)); auto.
  - rewrite run_digits, Hd. discriminate.
  - intros n' c s' Hc. rewrite run_digits. now rewrite (space_not_digit _ Hc).
  - simpl. destruct (Chars.is_space d) eqn:E; auto.
    apply space_not_digit in E. congruence.
Qed.

Lemma count_match_inv marker s sp :
  match_here (count_pattern marker) s = Some sp ->
  exists ws ds rest,
    s = marker ++ ws ++ ds ++ rest
    /\ Str.forallb Chars.is_space ws = true
    /\ ds <> "" /\ Str.forallb Chars.is_digit ds = true
    /\ stops Chars.is_digit rest = true
    /\ group1 (MkMatch 0 s sp) = Some ds.
Proof.
  unfold match_here, count_pattern. intros H.
  apply run_lit_inv in H as (s1 & -> & H). rewrite run_star in H.
  apply star_inv in H as (ws & b & -> & Hws & H).
  rewrite run_digits in H. destruct b as [|d t]; [discriminate|].
  destruct (Chars.is_digit d) eqn:Hd; [|discriminate].
  injection H as <-.
  set (ds := take_while Chars.is_digit (String d t)).
  exists ws, ds, (Str.drop_while Chars.is_digit (String d t)).
  repeat split.
  - unfold ds. now rewrite take_drop_while.
  - auto.
  - unfold ds. simpl. rewrite Hd. discriminate.
  - apply take_while_all.
  - apply drop_while_stops.
  - unfold group1. cbn [m_span m_group m_subject].
    change (if Chars.is_digit d then String d (take_while Chars.is_digit t) else "")
      with ds.
    replace (length marker + length ws + length ds - (length marker + length ws))
      with (length ds) by lia.
    replace (length marker + length ws) with (length (marker ++ ws))
      by (rewrite append_length; lia).
    rewrite <- append_assoc, skip_append.
    rewrite <- (take_drop_while Chars.is_digit (String d t)).
    fold ds. now rewrite take_append.
Qed.

(** What [search] finds. *)
Lemma search_from_some pat i s m :
  search_from pat i s = Some m ->
  exists pre,
    s = pre ++ m_subject m
    /\ match_here pat (m_subject m) = Some (m_span m)
    /\ forall pre' s', s = pre' ++ s' -> length pre' < length pre ->
                       match_here pat s' = None.
Proof.
  revert i; induction s as [|c s IH]; intros i H; cbn [search_from] in H.
  - destruct (match_here pat "") eqn:E; [|discriminate].
    injection H as <-. exists "". repeat split; auto.
    simpl; intros; lia.
  - destruct (match_here pat (String c s)) eqn:E.
    + injection H as <-. exists "". repeat split; auto.
      simpl; intros; lia.
    + destruct (IH _ H) as (pre & Hs & Hm & Hleft).
      exists (String c pre). repeat split.
      * simpl. now rewrite <- Hs.
      * auto.
      * intros pre' s' Hs' Hlen. destruct pre' as [|c' pre'].
        -- simpl in Hs'. now subst s'.
        -- simpl in Hs'. injection Hs' as -> Hs'.
           apply (Hleft pre'); auto. simpl in Hlen. lia.
Qed.

Lemma search_from_none pat i s :
  search_from pat i s = None ->
  forall pre s', s = pre ++ s' -> match_here pat s' = None.
Proof.
  revert i; induction s as [|c s IH]; intros i H pre s' Hs; cbn [search_from] in H.
  - destruct pre; [|discriminate]. simpl in Hs. subst s'.
    now destruct (match_here pat "").
  - destruct (match_here pat (String c s)) eqn:E; [discriminate|].
    destruct pre as [|c' pre].
    + simpl in Hs. now subst s'.
    + simpl in Hs. injection Hs as -> Hs. now apply (IH _ H pre).
Qed.

Lemma group1_start i j s sp : group1 (MkMatch i s sp) = group1 (MkMatch j s sp).
Proof. reflexivity. Qed.

Lemma captured_count_spec marker logs default :
  exists n,
    captured_count (search (count_pattern marker) logs) default = Ret n
    /\ (count_found marker logs n
        \/ (count_absent marker logs /\ n = default)).
Proof.
  unfold search. destruct (search_from (count_pattern marker) 0 logs) as [m|] eqn:E.
  - destruct (search_from_some _ _ _ _ E) as (pre & Hs & Hm & Hleft).
    destruct m as [i subj sp]. cbn [m_subject m_span] in *.
    destruct (count_match_inv _ _ _ Hm)
      as (ws & ds & rest & Hsubj & Hws & Hne & Hds & Hrest & Hg).
    exists (Str.int_of_digits ds). split.
    + unfold captured_count. now rewrite (group1_start i 0), Hg.
    + left. exists pre, ws, ds, rest. repeat split; auto.
      * now rewrite Hs, Hsubj.
      * intros pre' s' Hs' Hlen Hc.
        apply (count_match marker) in Hc. apply Hc. eapply Hleft; eauto.
  - exists default. split; [reflexivity|]. right. split; auto.
    intros pre s Hs Hc.
    apply (count_match marker) in Hc. apply Hc.
    eapply search_from_none; eauto.
Qed.

Lemma int_of_digits_acc_nonneg s acc :
  Str.forallb Chars.is_digit s = true -> (0 <= acc)%Z ->
  (0 <= Str.int_of_digits_acc acc s)%Z.
Proof.
  revert acc; induction s as [|c s IH];
    cbn [Str.int_of_digits_acc Str.forallb]; intros acc H Hacc; auto.
  apply andb_prop in H as [Hc H]. apply IH; auto.
  unfold Chars.is_digit, Chars.between in Hc.
  apply andb_prop in Hc as [H1 H2]. apply N.leb_le in H1. lia.
Qed.

Lemma count_found_nonneg marker logs n : count_found marker logs n -> (0 <= n)%Z.
Proof.
  intros (pre & ws & ds & rest & _ & _ & _ & Hds & _ & -> & _).
  apply int_of_digits_acc_nonneg; auto. lia.
Qed.

End CountFacts.

Import CountFacts.


(** ** Execution of the script *)

Module Steps.

Section Env.

Context {W : Type} (env : Env W).

Lemma triple {A} (x : result A * W * list event) :
  x = (outcome x, world x, trace x).
Proof. now destruct x as [[r w] t]. Qed.

Lemma bind_ret {A B} (m : M W A) (f : A -> M W B) w a w1 t1 :
  m w = (Ret a, w1, t1) ->
  bind m f w = (outcome (f a w1), world (f a w1), (t1 ++ trace (f a w1))%list).
Proof.
  intros H. unfold bind. rewrite H. now destruct (f a w1) as [[r w2] t2].
Qed.

Lemma bind_raise {A B} (m : M W A) (f : A -> M W B) w e w1 t1 :
  m w = (Raise e, w1, t1) -> bind m f w = (Raise e, w1, t1).
Proof. intros H. unfold bind. now rewrite H. Qed.

Lemma bind_emit {B} (ev : event) (k : unit -> M W B) w :
  bind (emit ev) k w = (outcome (k tt w), world (k tt w), ev :: trace (k tt w)).
Proof. unfold bind, emit. now destruct (k tt w) as [[r w2] t2]. Qed.

Lemma bind_call {A B} (op : W -> A * W) (k : A -> M W B) w :
  bind (call op) k w = k (fst (op w)) (snd (op w)).
Proof.
  unfold bind, call. destruct (op w) as [a w1]. cbn [fst snd].
  now destruct (k a w1) as [[r w2] t2].
Qed.

Lemma bind_lift_ret {A B} (a : A) (k : A -> M W B) w :
  bind (lift (Ret a)) k w = k a w.
Proof. unfold bind, lift. now destruct (k a w) as [[r w2] t2]. Qed.

Lemma bind_lift_raise {A B} (e : exn) (k : A -> M W B) w :
  bind (lift (Raise e)) k w = (Raise e, w, []).
Proof. reflexivity. Qed.

Lemma outcome_eq {A} (r : result A) (w : W) t : outcome (r, w, t) = r.
Proof. reflexivity. Qed.

Lemma world_eq {A} (r : result A) (w : W) t : world (r, w, t) = w.
Proof. reflexivity. Qed.

Lemma trace_eq {A} (r : result A) (w : W) t : trace (r, w, t) = t.
Proof. reflexivity. Qed.


Lemma bind_outcome {A B} (m : M W A) (f : A -> M W B) w a :
  outcome (m w) = Ret a ->
  bind m f w = (outcome (f a (world (m w))), world (f a (world (m w))),
                (trace (m w) ++ trace (f a (world (m w))))%list).
Proof.
  intros H. apply bind_ret. rewrite (triple (m w)) at 1. now rewrite H.
Qed.

(** The repair client: one repair event, and never an exception. *)
Lemma fix_dockerfile_try_silent c l w :
  trace (fix_dockerfile_try env c l w) = [].
Proof.
  unfold fix_dockerfile_try, bind, call, lift, ret, raise, trace.
  destruct (requests_post env (prompt_of c l) w) as [[e|code text body] w1]; cbn.
  - reflexivity.
  - destruct (negb (code =? 200)%Z); cbn; [reflexivity|].
    destruct body as [j|e]; cbn; [|reflexivity].
    destruct (has_error j) as [[|]|e]; cbn; try reflexivity.
    + destruct (error_field j); reflexivity.
    + destruct (first_item j) as [x|e]; cbn; [|reflexivity].
      destruct (generated_text_of x) as [g|e]; cbn; [|reflexivity].
      destruct (String.eqb g ""); reflexivity.
Qed.

Lemma fix_dockerfile_with_llm_run c l w :
  exists r w',
    fix_dockerfile_with_llm env c l w = (Ret r, w', [EvRepair c l]).
Proof.
  unfold fix_dockerfile_with_llm, bind, emit, try_except.
  pose proof (fix_dockerfile_try_silent c l w) as Ht.
  destruct (fix_dockerfile_try env c l w) as [[[r|e] w1] t1];
    unfold trace in Ht; simpl in Ht; subst t1; cbn; eauto.
Qed.

Lemma build_image_run n t c w :
  exists s e l w',
    build_image env n t c w = (Ret (s, e, l), w', [EvBuild n t c s l])
    /\ (s = false -> e <> None).
Proof.
  unfold build_image, bind, call, emit, ret.
  destruct (images_build env c n t w) as [[logs|logs|e] w1]; cbn;
    do 4 eexists; (split; [reflexivity|]); congruence.
Qed.

Lemma store_build_logs_run p logs w :
  exists w',
    store_build_logs env p logs w = (Ret tt, w', [EvWriteLines p (last_n 200 logs)]).
Proof.
  unfold store_build_logs, bind, call, emit, ret.
  destruct (file_writelines env p (last_n 200 logs) w) as [r w1]; cbn; eauto.
Qed.

Lemma run_container_run tag w :
  exists r w', run_container env tag w = (Ret r, w', [EvRun tag]).
Proof.
  unfold run_container, bind, call, emit, ret.
  destruct (containers_run env tag w) as [[logs|e] w1]; cbn; eauto.
Qed.

End Env.

End Steps.

Module Loop.
Import Steps.

Section Env.

Context {W : Type} (env : Env W).
Variables (bibcode_dir bibcode base_version ubuntu_version : string).
Variables (content image_tag : string).

Lemma retry_loop_exit fuel st w :
  success st = true \/ max_retries <= retry_count st ->
  retry_loop env bibcode_dir ubuntu_version content image_tag fuel st w
  = (Ret st, w, []).
Proof.
  intros H.
  assert (E : (negb (success st) && Nat.ltb (retry_count st) max_retries)%bool = false).
  { destruct H as [->|H]; [reflexivity|].
    apply Nat.ltb_ge in H. rewrite H. apply andb_false_r. }
  destruct fuel; cbn [retry_loop]; now rewrite E.
Qed.

Lemma retry_loop_run fuel st w :
  max_retries - retry_count st <= fuel -> sound st ->
  let x := retry_loop env bibcode_dir ubuntu_version content image_tag fuel st w in
  exists st',
    outcome x = Ret st'
    /\ loop_shape bibcode_dir ubuntu_version content image_tag st (trace x) st'
    /\ sound st'.
Proof.
  revert st w; induction fuel as [|fuel IH]; intros st w Hfuel Hst x; subst x.
  - assert (H : success st = true \/ max_retries <= retry_count st) by (right; lia).
    exists st. rewrite (retry_loop_exit _ _ _ H).
    repeat split; auto. now constructor.
  - destruct (success st) eqn:Es.
    { exists st. rewrite retry_loop_exit by auto.
      repeat split; auto. constructor. auto. }
    destruct (Nat.ltb (retry_count st) max_retries) eqn:El.
    2:{ apply Nat.ltb_ge in El.
        exists st. rewrite retry_loop_exit by auto.
        repeat split; auto. constructor. auto. }
    cbn [retry_loop]. rewrite Es, El. cbn [negb andb].
    apply Nat.ltb_lt in El.
    destruct (fix_dockerfile_with_llm_run env content
                (Str.join (last_n 200 (build_logs st))) w) as (r & w1 & Hfix).
    rewrite (bind_ret _ _ _ _ _ _ Hfix).
    destruct r as [fixed|];
      [destruct (String.eqb fixed "") eqn:Ef|];
      try (exists st; unfold ret; rewrite outcome_eq, trace_eq;
           repeat split; auto; now constructor).
    rewrite bind_emit, bind_call.
    destruct (file_write env _ fixed w1) as [[[]|e] w2]; cbn [fst snd].
    2:{ exists st. unfold ret. rewrite !outcome_eq, !trace_eq.
        repeat split; auto. now apply loop_unwritten. }
    rewrite !outcome_eq, !trace_eq.
    match goal with |- context [bind (build_image env ?n ?t ?d) _ w2] =>
      destruct (build_image_run env n t d w2) as (s & e & l & w3 & Hb & Hse)
    end.
    rewrite (bind_ret _ _ _ _ _ _ Hb). cbn [fst snd].
    match goal with |- context [bind (store_build_logs env ?p l) _ w3] =>
      destruct (store_build_logs_run env p l w3) as (w4 & Hs)
    end.
    rewrite (bind_ret _ _ _ _ _ _ Hs).
    destruct (IH (MkAttempt s e l (retry_count st + 1)) w4)
      as (st' & Hr & Hshape & Hsound).
    { cbn [retry_count]. lia. }
    { exact Hse. }
    exists st'. rewrite !outcome_eq, !trace_eq.
    split; [exact Hr|]. split; [|exact Hsound].
    now apply loop_retry with (e := e).
Qed.

End Env.

End Loop.

Module Pair.
Import Steps Loop.

Lemma parse_test_results_total logs : exists t, parse_test_results logs = Ret t.
Proof.
  destruct (CountFacts.captured_count_spec "Tests Passed:" logs 1) as (p & Hp & Hps).
  destruct (CountFacts.captured_count_spec "Tests Failed:" logs 0) as (f & Hf & Hfs).
  assert (Hp0 : (0 <= p)%Z).
  { destruct Hps as [H|[_ ->]]; [eapply CountFacts.count_found_nonneg; eauto|lia]. }
  assert (Hf0 : (0 <= f)%Z).
  { destruct Hfs as [H|[_ ->]]; [eapply CountFacts.count_found_nonneg; eauto|lia]. }
  unfold parse_test_results.
  change pass_pattern with (count_pattern "Tests Passed:").
  change fail_pattern with (count_pattern "Tests Failed:").
  rewrite Hp, Hf.
  destruct (Z.ltb 0 (p + f)) eqn:Et; eauto.
  destruct (FloatFacts.int_true_div_le p (p + f)) as (q & Hq);
    try (apply Z.ltb_lt in Et; lia).
  rewrite Hq. eauto.
Qed.

Section Env.

Context {W : Type} (env : Env W).
Variables (bibcode_dir bibcode base_version ubuntu_version : string).

Lemma record_outcome_run image_tag st serial_no w :
  sound st ->
  let x := record_outcome env bibcode base_version ubuntu_version image_tag
             st serial_no w in
  outcome x = Ret (serial_no + 1)%Z
  /\ record_shape bibcode base_version ubuntu_version image_tag st serial_no
       (trace x).
Proof.
  intros Hst x. subst x. unfold record_outcome.
  destruct (success st) eqn:Es.
  - destruct (run_container_run env image_tag w) as ([ok out] & w1 & Hr).
    rewrite (bind_ret _ _ _ _ _ _ Hr). cbn [fst snd].
    destruct ok.
    + destruct (parse_test_results_total out) as ([[p f] pct] & Hp).
      rewrite Hp, bind_lift_ret. unfold log_results.
      rewrite bind_emit. unfold ret. rewrite !outcome_eq, !trace_eq.
      split; auto. cbn [fst snd app].
      eapply record_tests; eauto.
    + unfold log_results. rewrite bind_emit. unfold ret.
      rewrite !outcome_eq, !trace_eq. split; auto.
      now apply record_run_failed.
  - destruct (error_message st) as [msg|] eqn:Em.
    + unfold log_results. rewrite bind_emit. unfold ret.
      rewrite !outcome_eq, !trace_eq. split; auto.
      now apply record_build_failed.
    + exfalso. now apply (Hst Es).
Qed.

Lemma process_version_run dockerfile_content serial_no w :
  let x := process_version env bibcode_dir bibcode base_version
             dockerfile_content ubuntu_version serial_no w in
  version_shape bibcode_dir bibcode base_version dockerfile_content
    ubuntu_version serial_no (outcome x) (trace x).
Proof.
  intros x. subst x. unfold process_version.
  destruct (update_dockerfile_content dockerfile_content ubuntu_version)
    as [u|e] eqn:Eu.
  2:{ rewrite bind_lift_raise. now constructor. }
  rewrite bind_lift_ret.
  destruct (String.eqb (Str.strip u) "") eqn:Eb.
  { apply String.eqb_eq in Eb. unfold ret. eapply version_blank; eauto. }
  rewrite bind_emit, bind_call.
  destruct (file_write env _ u w) as [[[]|e] w1]; cbn [fst snd].
  2:{ unfold ret. rewrite !outcome_eq, !trace_eq. eapply version_unwritten; eauto. }
  rewrite sanitize_image_tag_eq, bind_lift_ret.
  fold (image_tag_of bibcode ubuntu_version).
  unfold build_repair_record.
  match goal with |- context [bind (build_image env ?n ?t ?d) _ w1] =>
    destruct (build_image_run env n t d w1) as (s & e & l & w2 & Hb & Hse)
  end.
  rewrite (bind_ret _ _ _ _ _ _ Hb). cbn [fst snd].
  match goal with |- context [bind (store_build_logs env ?p l) _ w2] =>
    destruct (store_build_logs_run env p l w2) as (w3 & Hs)
  end.
  rewrite (bind_ret _ _ _ _ _ _ Hs).
  pose proof (retry_loop_run env bibcode_dir ubuntu_version u
                (image_tag_of bibcode ubuntu_version) max_retries
                (MkAttempt s e l 0) w3) as Hloop.
  cbv zeta in Hloop.
  destruct Hloop as (st' & Ho & Hshape & Hsound).
  { cbn [retry_count]. lia. }
  { exact Hse. }
  rewrite (bind_outcome _ _ _ _ Ho).
  pose proof (record_outcome_run (image_tag_of bibcode ubuntu_version) st'
                serial_no
                (world (retry_loop env bibcode_dir ubuntu_version u
                          (image_tag_of bibcode ubuntu_version) max_retries
                          (MkAttempt s e l 0) w3)) Hsound) as Hrec.
  cbv zeta in Hrec. destruct Hrec as (Hro & Hrs).
  rewrite !outcome_eq, !trace_eq, Hro.
  cbn [app].
  eapply version_built; eauto.
Qed.

End Env.

End Pair.

Module Traces.
Import Steps Loop Pair.
Local Open Scope list_scope.

Lemma rows_app a b : rows (a ++ b) = rows a ++ rows b.
Proof. induction a as [|[] a IH]; simpl; congruence. Qed.

Lemma repairs_app a b : repairs (a ++ b) = repairs a ++ repairs b.
Proof. induction a as [|[] a IH]; simpl; congruence. Qed.

Lemma build_tags_app a b : build_tags (a ++ b) = build_tags a ++ build_tags b.
Proof. induction a as [|[] a IH]; simpl; congruence. Qed.


Section Shapes.

Variables (bibcode_dir bibcode base_version ubuntu_version : string).
Variables (content image_tag : string).

Lemma loop_rows st tr st' :
  loop_shape bibcode_dir ubuntu_version content image_tag st tr st' ->
  rows tr = [].
Proof. induction 1; auto. Qed.

Lemma loop_builds st tr st' :
  loop_shape bibcode_dir ubuntu_version content image_tag st tr st' ->
  Forall (eq image_tag) (build_tags tr).
Proof. induction 1; simpl; auto. Qed.


Lemma loop_repairs_content st tr st' :
  loop_shape bibcode_dir ubuntu_version content image_tag st tr st' ->
  Forall (fun p => fst p = content) (repairs tr).
Proof. induction 1; simpl; auto. Qed.


Lemma record_rows st serial_no tr :
  record_shape bibcode base_version ubuntu_version image_tag st serial_no tr ->
  exists r, rows tr = [r] /\ serial r = serial_no /\ row_bibcode r = bibcode.
Proof. destruct 1; simpl; eauto. Qed.

Lemma record_quiet st serial_no tr :
  record_shape bibcode base_version ubuntu_version image_tag st serial_no tr ->
  repairs tr = [] /\ build_tags tr = [] /\ log_writes_bounded tr.
Proof. destruct 1; simpl; auto. Qed.

End Shapes.


End Traces.

Import Steps Loop Pair Traces.
Local Open Scope list_scope.

(** ** One version of one artifact *)

Section PairClaims.

Context {W : Type} (env : Env W).


(** C5 (amended).  The sanitisation turns every character outside
    [a-zA-Z0-9_.-] into an underscore and lower-cases the others (a dot and
    a dash are kept); the image tag is the sanitised Bibcode, a colon and
    the version without its dots, and every build of the pair, the original
    one and every rebuild, is given this tag. *)
Theorem image_tag_stable
        (bibcode_dir bibcode base_version dockerfile_content ubuntu_version : string)
        (serial_no : Z) (w : W) :
  let x := process_version env bibcode_dir bibcode base_version
             dockerfile_content ubuntu_version serial_no w in
  sanitize_image_tag bibcode = Ret (Str.map sanitize_char bibcode)
  /\ (forall c, sanitize_char c
                = if tag_forbidden c then "_"%char else Chars.lower_char c)
  /\ Forall (eq (image_tag_of bibcode ubuntu_version)) (build_tags (trace x)).
Proof.
  intros x. split; [apply sanitize_image_tag_eq|].
  split; [intros c; unfold sanitize_char; now destruct (tag_forbidden c)|].
  pose proof (process_version_run env bibcode_dir bibcode base_version
                ubuntu_version dockerfile_content serial_no w) as H.
  cbv zeta in H. fold x in H.
  destruct H as [e He|u Hu Hb|u Hu|u s e l tr1 st' tr2 Hu Hloop Hrec]; simpl;
    auto.
  constructor; auto. rewrite build_tags_app.
  apply Forall_app. split.
  - eapply loop_builds; eauto.
  - destruct (record_quiet _ _ _ _ _ _ _ Hrec) as (_ & -> & _). constructor.
Qed.


(** Every call of the repair client carries the first variant of the
    Dockerfile, whatever was built last. *)
Lemma repairs_send_first_variant
        (bibcode_dir bibcode base_version dockerfile_content ubuntu_version : string)
        (serial_no : Z) (w : W) u :
  update_dockerfile_content dockerfile_content ubuntu_version = Ret u ->
  Forall (fun p => fst p = u)
    (repairs (trace (process_version env bibcode_dir bibcode base_version
                       dockerfile_content ubuntu_version serial_no w))).
Proof.
  intros Hu0.
  pose proof (process_version_run env bibcode_dir bibcode base_version
                ubuntu_version dockerfile_content serial_no w) as H.
  cbv zeta in H.
  destruct H as [e He|u' Hu Hb|u' Hu|u' s e l tr1 st' tr2 Hu Hloop Hrec]; simpl;
    auto.
  rewrite repairs_app. apply Forall_app. split.
  - rewrite Hu0 in Hu. injection Hu as <-. eapply loop_repairs_content; eauto.
  - destruct (record_quiet _ _ _ _ _ _ _ Hrec) as (-> & _ & _). constructor.
Qed.

End PairClaims.

(** ** The whole run *)

Module Run.

Lemma consecutive_app s a b :
  consecutive s a -> consecutive (s + Z.of_nat (List.length a))%Z b ->
  consecutive s (a ++ b).
Proof.
  revert s; induction a as [|x a IH]; intros s Ha Hb; simpl in *.
  - now replace (s + 0)%Z with s in Hb by lia.
  - destruct Ha as [-> Ha]. split; auto. apply IH; auto.
    now replace (s + 1 + Z.of_nat (List.length a))%Z
      with (s + Z.pos (Pos.of_succ_nat (List.length a)))%Z by lia.
Qed.

Lemma consecutive_lower s l : consecutive s l -> Forall (fun x => (s <= x)%Z) l.
Proof.
  revert s; induction l as [|x l IH]; intros s H; simpl in *; auto.
  destruct H as [-> H]. constructor; [lia|].
  apply IH in H. eapply Forall_impl; [|exact H]. simpl; intros; lia.
Qed.

Lemma consecutive_sorted s l : consecutive s l -> StronglySorted Z.lt l.
Proof.
  revert s; induction l as [|x l IH]; intros s H; simpl in *.
  - constructor.
  - destruct H as [-> H]. constructor; [eapply IH; eauto|].
    apply consecutive_lower in H. eapply Forall_impl; [|exact H].
    simpl; intros; lia.
Qed.

Lemma sorted_nodup l : StronglySorted Z.lt l -> NoDup l.
Proof.
  induction 1 as [|x l Hs IH Hx]; constructor; auto.
  intros Hin. rewrite Forall_forall in Hx. specialize (Hx _ Hin). lia.
Qed.

Lemma serials_app a b : serials (a ++ b) = serials a ++ serials b.
Proof. unfold serials. now rewrite rows_app, map_app. Qed.

Section Env.

Context {W : Type} (env : Env W).

Lemma ticks_ret s (w : W) : ticks s (Ret s, w, []).
Proof. split; simpl; auto. intros s' [= <-]. lia. Qed.

Lemma ticks_bind {A} s (m : M W A) (f : A -> M W Z) w :
  serials (trace (m w)) = [] ->
  (forall a w', ticks s (f a w')) ->
  ticks s (bind m f w).
Proof.
  intros Hm Hf. unfold bind.
  destruct (m w) as [[[a|e] w1] t1] eqn:E; unfold trace in Hm; simpl in Hm.
  - specialize (Hf a w1). destruct (f a w1) as [[r w2] t2].
    destruct Hf as [H1 H2]. unfold ticks, trace, outcome in *; simpl in *.
    rewrite serials_app, Hm. simpl. split; auto.
  - unfold ticks, trace, outcome; simpl. rewrite Hm; simpl. split; auto.
    discriminate.
Qed.

Lemma ticks_seq s (m : M W Z) (f : Z -> M W Z) w :
  ticks s (m w) ->
  (forall a w', ticks a (f a w')) ->
  ticks s (bind m f w).
Proof.
  intros Hm Hf. unfold bind.
  destruct (m w) as [[[a|e] w1] t1] eqn:E.
  - destruct Hm as [H1 H2]. unfold trace, outcome in *; simpl in *.
    specialize (H2 _ eq_refl). subst a.
    specialize (Hf (s + Z.of_nat (List.length (serials t1)))%Z w1).
    destruct (f _ w1) as [[r w2] t2]. destruct Hf as [H3 H4].
    unfold ticks, trace, outcome in *; simpl in *.
    rewrite serials_app. split.
    + now apply consecutive_app.
    + intros s' Hs'. rewrite (H4 _ Hs'), length_app. lia.
  - destruct Hm as [H1 H2]. split; auto.
Qed.

Lemma process_version_ticks d b bv c v s w :
  ticks s (process_version env d b bv c v s w).
Proof.
  pose proof (process_version_run env d b bv v c s w) as H. cbv zeta in H.
  unfold ticks.
  destruct H as [e He|u Hu Hb|u Hu|u s0 e l tr1 st' tr2 Hu Hloop Hrec];
    unfold serials; simpl.
  1-3: split; auto; try discriminate; intros s' [= <-]; lia.
  rewrite rows_app, (loop_rows _ _ _ _ _ _ _ Hloop). simpl.
  destruct (record_rows _ _ _ _ _ _ _ Hrec) as (r & -> & Hr & _). simpl.
  split; auto. intros s' [= <-]. lia.
Qed.

Lemma for_each_ticks {A} (body : A -> Z -> M W Z) l s w :
  (forall a s' w', ticks s' (body a s' w')) ->
  ticks s (for_each body l s w).
Proof.
  intros Hb. revert s w; induction l as [|a l IH]; intros s w; simpl.
  - apply ticks_ret.
  - apply ticks_seq; auto.
Qed.

Lemma process_bibcode_ticks base b s w :
  ticks s (process_bibcode env base b s w).
Proof.
  unfold process_bibcode. rewrite bind_call.
  destruct (os_path_exists env _ w) as [[|] w1]; cbn [fst snd negb];
    [|apply ticks_ret].
  rewrite bind_call.
  destruct (file_read env _ w1) as [[c|e] w2]; cbn [fst snd];
    [|apply ticks_ret].
  destruct (extract_base_version c) as [bv|]; [|apply ticks_ret].
  destruct (String.eqb bv ""); [apply ticks_ret|].
  apply for_each_ticks. intros. apply process_version_ticks.
Qed.

Lemma keep_dirs_silent base names w :
  trace (keep_dirs env base names w) = [].
Proof.
  revert w; induction names as [|d names IH]; intros w; simpl; auto.
  rewrite bind_call.
  destruct (os_path_isdir env _ w) as [isdir w1]; cbn [fst snd].
  specialize (IH w1). unfold bind.
  destruct (keep_dirs env base names w1) as [[[rest|e] w2] t2];
    unfold trace in *; simpl in *; subst; auto.
Qed.

Lemma load_bibcode_directories_silent base specific w :
  trace (load_bibcode_directories env base specific w) = [].
Proof.
  unfold load_bibcode_directories. rewrite bind_call.
  destruct (os_listdir env base w) as [[names|e] w1]; cbn [fst snd].
  2:{ now rewrite bind_lift_raise. }
  rewrite bind_lift_ret.
  pose proof (keep_dirs_silent base names w1) as Hk. unfold bind.
  destruct (keep_dirs env base names w1) as [[[dirs|e] w2] t2];
    unfold trace in *; simpl in *; subst; auto.
  destruct (negb (falsy specific)); [|reflexivity].
  destruct specific as [b|]; [|reflexivity].
  destruct (existsb (String.eqb b) dirs); reflexivity.
Qed.

Lemma trace_bind_silent {A B} (m : M W A) (f : A -> M W B) w :
  trace (m w) = [] ->
  trace (bind m f w)
  = match outcome (m w) with
    | Ret a => trace (f a (world (m w)))
    | Raise _ => []
    end.
Proof.
  unfold bind, trace, outcome, world.
  destruct (m w) as [[[a|e] w1] t1]; simpl; intros ->; auto.
  now destruct (f a w1) as [[r w2] t2].
Qed.

Lemma main_serials base specific w :
  consecutive 1 (serials (trace (main env base specific w))).
Proof.
  unfold main.
  rewrite trace_bind_silent by apply load_bibcode_directories_silent.
  destruct (outcome (load_bibcode_directories env base specific w))
    as [dirs|e]; [|exact I].
  set (w1 := world (load_bibcode_directories env base specific w)).
  assert (Hrun : consecutive 1
            (serials (trace (bind (for_each (process_bibcode env base) dirs 1%Z)
                                  (fun _ => ret tt) w1)))).
  { pose proof (for_each_ticks (process_bibcode env base) dirs 1%Z w1
                  (process_bibcode_ticks base)) as [H1 _].
    unfold bind.
    destruct (for_each (process_bibcode env base) dirs 1%Z w1) as [[[a|e] w2] t2];
      unfold trace in *; simpl in *; auto.
    now rewrite app_nil_r. }
  destruct (negb (falsy specific)), dirs; auto; exact I.
Qed.

End Env.

End Run.

Import Run.

Section RunClaims.

Context {W : Type} (env : Env W).

(** C6.  The serial numbers of the rows recorded by a run of [main] are
    strictly increasing, and none occurs twice. *)
Theorem serial_numbers_increase (base_directory : string)
        (specific_bibcode : option string) (w : W) :
  let numbers := serials (trace (main env base_directory specific_bibcode w)) in
  StronglySorted Z.lt numbers /\ NoDup numbers.
Proof.
  intros numbers.
  assert (H : StronglySorted Z.lt numbers)
    by (eapply consecutive_sorted, main_serials).
  split; auto. now apply sorted_nodup.
Qed.

Lemma fix_outcome c l w :
  outcome (fix_dockerfile_with_llm env c l w)
  = match outcome (fix_dockerfile_try env c l w) with
    | Ret r => Ret r
    | Raise _ => Ret None
    end.
Proof.
  unfold fix_dockerfile_with_llm. rewrite bind_emit, outcome_eq.
  unfold try_except, outcome.
  now destruct (fix_dockerfile_try env c l w) as [[[r|e] w1] t1].
Qed.

(** C7.  The repair client returns to its caller for every input and every
    behaviour of the service, and it returns [None] when the request raises,
    when the status is not 200, when the answer cannot be decoded, when it
    carries an [error] field, and when the generated text is missing or
    blank. *)
Theorem repair_client_never_raises (dockerfile_content error_logs : string)
        (w : W) :
  let x := fix_dockerfile_with_llm env dockerfile_content error_logs w in
  (exists r, outcome x = Ret r)
  /\ (unusable
        (fst (requests_post env (prompt_of dockerfile_content error_logs) w)) ->
      outcome x = Ret None).
Proof.
  intros x. subst x. rewrite fix_outcome. split.
  - destruct (outcome (fix_dockerfile_try env dockerfile_content error_logs w));
      eauto.
  - unfold fix_dockerfile_try. rewrite bind_call.
    destruct (requests_post env (prompt_of dockerfile_content error_logs) w)
      as [o w1]; cbn [fst snd].
    intros H. destruct H as [e|code text body Hc|text e|text d v Hd
                              |text d rest Hd|text d rest s Hd Hs];
      try reflexivity.
    + apply Z.eqb_neq in Hc. now rewrite Hc.
    + cbn [Z.eqb Pos.eqb negb]. rewrite bind_lift_ret.
      cbn [has_error]. rewrite Hd, bind_lift_ret.
      cbn [error_field]. rewrite Hd, bind_lift_ret. reflexivity.
    + cbn [Z.eqb Pos.eqb negb]. rewrite bind_lift_ret.
      cbn [has_error existsb is_str orb]. rewrite bind_lift_ret.
      destruct (existsb (is_str "error") rest).
      * cbn [error_field]. now rewrite bind_lift_raise.
      * cbn [first_item]. rewrite bind_lift_ret.
        cbn [generated_text_of]. rewrite Hd, bind_lift_ret. reflexivity.
    + cbn [Z.eqb Pos.eqb negb]. rewrite bind_lift_ret.
      cbn [has_error existsb is_str orb]. rewrite bind_lift_ret.
      destruct (existsb (is_str "error") rest).
      * cbn [error_field]. now rewrite bind_lift_raise.
      * cbn [first_item]. rewrite bind_lift_ret.
        cbn [generated_text_of]. rewrite Hd, Hs, bind_lift_ret. reflexivity.
Qed.

(** C8.  When the Dockerfile of an artifact is read and no base version can
    be extracted from it, the artifact is left without any event (no file
    written, no build, no row for any version), the serial number is
    unchanged, and the run goes on with the other artifacts. *)
Theorem unextractable_base_skipped (base_directory bibcode : string)
        (others : list string) (serial_no : Z) (w : W)
        (dockerfile_content : string) :
  let dockerfile_path :=
    path_join (path_join base_directory bibcode) "Dockerfile" in
  let present := os_path_exists env dockerfile_path w in
  fst present = true ->
  fst (file_read env dockerfile_path (snd present)) = Ret dockerfile_content ->
  extract_base_version dockerfile_content = None ->
  let x := process_bibcode env base_directory bibcode serial_no w in
  outcome x = Ret serial_no
  /\ trace x = []
  /\ for_each (process_bibcode env base_directory) (bibcode :: others)
       serial_no w
     = for_each (process_bibcode env base_directory) others serial_no (world x).
Proof.
  intros p present Hp Hr He x.
  assert (Hx : x = (Ret serial_no, snd (file_read env p (snd present)), [])).
  { subst x. unfold process_bibcode. fold p. rewrite bind_call. fold present.
    rewrite Hp. cbn [negb]. rewrite bind_call, Hr, He. reflexivity. }
  rewrite Hx. repeat split.
  cbn [for_each]. fold x. rewrite (bind_ret _ _ _ _ _ _ Hx).
  rewrite world_eq. cbn [app].
  now rewrite <- triple.
Qed.

Lemma retry_loop_unavailable bibcode_dir ubuntu_version content image_tag
      fuel st w fixed :
  success st = false -> retry_count st < max_retries ->
  outcome (fix_dockerfile_with_llm env content
             (Str.join (last_n 200 (build_logs st))) w) = Ret fixed ->
  falsy fixed = true ->
  exists w',
    retry_loop env bibcode_dir ubuntu_version content image_tag (S fuel) st w
    = (Ret st, w', [EvRepair content (Str.join (last_n 200 (build_logs st)))]).
Proof.
  intros Hs Hr Hfix Hfalsy.
  cbn [retry_loop]. rewrite Hs, (proj2 (Nat.ltb_lt _ _) Hr). cbn [negb andb].
  destruct (fix_dockerfile_with_llm_run env content
              (Str.join (last_n 200 (build_logs st))) w) as (r & w1 & Hf).
  rewrite Hf, outcome_eq in Hfix. injection Hfix as ->.
  rewrite (bind_ret _ _ _ _ _ _ Hf). exists w1.
  destruct fixed as [f|]; [simpl in Hfalsy; rewrite Hfalsy|]; reflexivity.
Qed.

(** C1 (amended).  When the first build fails with the error text [msg]
    and the repair client returns nothing usable, the repair client was
    called exactly once, no rebuild takes place, and the one row recorded
    has the error text without its last five characters as error details
    and a note that reports 0 retries. *)
Theorem repair_unavailable_recorded
        (bibcode_dir bibcode base_version ubuntu_version : string)
        (updated_dockerfile_content image_tag temp_dockerfile_name : string)
        (serial_no : Z) (w : W)
        (msg : string) (logs : list string) (fixed : option string) :
  let b := build_image env temp_dockerfile_name image_tag bibcode_dir w in
  let log_file_path :=
    path_join bibcode_dir
      ("build_log_" ++ version_nodots ubuntu_version ++ ".txt")%string in
  let w2 := world (store_build_logs env log_file_path logs (world b)) in
  let error_logs := Str.join (last_n 200 logs) in
  outcome b = Ret (false, Some msg, logs) ->
  outcome (fix_dockerfile_with_llm env updated_dockerfile_content error_logs w2)
  = Ret fixed ->
  falsy fixed = true ->
  let x := build_repair_record env bibcode_dir bibcode base_version
             ubuntu_version updated_dockerfile_content image_tag
             temp_dockerfile_name serial_no w in
  outcome x = Ret (serial_no + 1)%Z
  /\ repairs (trace x) = [(updated_dockerfile_content, error_logs)]
  /\ build_tags (trace x) = [image_tag]
  /\ rows (trace x)
     = [MkRow serial_no bibcode base_version ubuntu_version 0 0 (PyInt 0)
              (Str.drop_last 5 msg) "Attempted fixes via LLM API, 0 retries"].
Proof.
  intros b p w2 error_logs Hb Hfix Hfalsy x. subst x w2 b.
  unfold build_repair_record.
  destruct (build_image_run env temp_dockerfile_name image_tag bibcode_dir w)
    as (s & e & l & w1 & Hb1 & _).
  rewrite Hb1, outcome_eq in Hb. injection Hb as -> -> ->.
  rewrite Hb1, world_eq in Hfix.
  rewrite (bind_ret _ _ _ _ _ _ Hb1). cbn [fst snd].
  fold p.
  destruct (store_build_logs_run env p logs w1) as (w2 & Hs).
  rewrite Hs, world_eq in Hfix.
  rewrite (bind_ret _ _ _ _ _ _ Hs).
  destruct (retry_loop_unavailable bibcode_dir ubuntu_version
              updated_dockerfile_content image_tag 2
              (MkAttempt false (Some msg) logs 0) w2 fixed)
    as (w3 & Hloop); auto.
  { unfold max_retries; cbn; lia. }
  change 3 with max_retries in Hloop.
  rewrite (bind_ret _ _ _ _ _ _ Hloop).
  unfold record_outcome; cbn [success error_message retry_count build_logs].
  unfold log_results; rewrite bind_emit; unfold ret.
  rewrite !outcome_eq, !trace_eq. repeat split.
Qed.

End RunClaims.

Local Open Scope string_scope.
Import Scenario.

(** ** The scenarios *)

Lemma repair_unavailable_recorded_witness :
  let x := build_repair_record Scripted.env "./A1" "A1" "18.04" "20.04"
             variant_0 "a1:2004" "Dockerfile_20.04" 1 service_down in
  outcome x = Ret 2%Z
  /\ repairs (trace x) = [(variant_0, "missing pkg" ++ LF)]
  /\ build_tags (trace x) = ["a1:2004"]
  /\ rows (trace x)
     = [MkRow 1 "A1" "18.04" "20.04" 0 0 (PyInt 0) "missing"
              "Attempted fixes via LLM API, 0 retries"].
Proof.
  apply (repair_unavailable_recorded Scripted.env "./A1" "A1" "18.04" "20.04"
           variant_0 "a1:2004" "Dockerfile_20.04" 1 service_down
           ("missing pkg" ++ LF) ["missing pkg" ++ LF] None);
    reflexivity.
Defined.

(** C1 as stated fails in scenario B: one repair call and one build, but
    the error details differ from the build error text and the note does not
    mention 1. *)
Lemma repair_unavailable_as_stated_fails :
  let x := process_version Scripted.env "./A1" "A1" "18.04" base_dockerfile
             "20.04" 1 service_down in
  exists b r,
    List.length (repairs (trace x)) = 1
    /\ filter is_build (trace x)
       = [EvBuild "Dockerfile_20.04" "a1:2004" "./A1" false [b]]
    /\ rows (trace x) = [r]
    /\ error_details r <> Str.join [b]
    /\ contains "1" (modifications r) = false.
Proof.
  eexists. eexists. vm_compute.
  repeat split; try reflexivity. discriminate.
Qed.

(** C2 fails on the code: after two failing builds the second repair call
    carries the first variant together with the log of the build of the
    repaired variant, which has another text. *)
Lemma second_repair_sends_first_variant :
  let tr := trace (process_version Scripted.env "./A1" "A1" "18.04"
                     base_dockerfile "20.04" 1 two_failures) in
  firstn 8 tr
  = [EvWriteFile "./A1/Dockerfile_20.04" variant_0;
     EvBuild "Dockerfile_20.04" "a1:2004" "./A1" false ["missing pkg" ++ LF];
     EvWriteLines "./A1/build_log_2004.txt" ["missing pkg" ++ LF];
     EvRepair variant_0 ("missing pkg" ++ LF);
     EvWriteFile "./A1/Dockerfile_20.04_fixed_1" fixed_1;
     EvBuild "Dockerfile_20.04_fixed_1" "a1:2004" "./A1" false
             ["make: not found" ++ LF];
     EvWriteLines "./A1/build_log_2004_fixed_1.txt" ["make: not found" ++ LF];
     EvRepair variant_0 ("make: not found" ++ LF)]
  /\ variant_0 <> fixed_1.
Proof. split; [vm_compute; reflexivity|discriminate]. Qed.

(** C5 as stated fails: a dot and a dash are not turned into
    underscores. *)
Lemma sanitize_keeps_dot_and_dash :
  sanitize_image_tag "Rosu.S-12" = Ret "rosu.s-12"
  /\ spec_sanitize "Rosu.S-12" = "rosu_s_12".
Proof. split; reflexivity. Qed.

Lemma unextractable_base_skipped_witness :
  let x := process_bibcode Scripted.env "." "A1" 1 no_base in
  outcome x = Ret 1%Z
  /\ trace x = []
  /\ for_each (process_bibcode Scripted.env ".") ["A1"; "B2"] 1 no_base
     = for_each (process_bibcode Scripted.env ".") ["B2"] 1 (world x).
Proof.
  apply (unextractable_base_skipped Scripted.env "." "A1" ["B2"] 1 no_base
           ("FROM debian:12" ++ LF ++ "RUN make")); reflexivity.
Defined.

Lemma repair_client_never_raises_witness :
  outcome (fix_dockerfile_with_llm Scripted.env variant_0 "missing pkg"
             service_down) = Ret None.
Proof.
  apply (repair_client_never_raises Scripted.env variant_0 "missing pkg"
           service_down).
  apply unusable_raised.
Defined.

(* ------------------------------------------------------------------ *)
(** * Further properties *)

Local Open Scope list_scope.
Local Open Scope string_scope.

(** ** The base version and its substitution *)

Module Pure.

Lemma has_from_directive_iff c :
  has_from_directive c <-> exists pre s, c = pre ++ s /\ directive_here s.
Proof.
  split.
  - intros (pre & ws & a & t & -> & H). exists pre. eexists. split; [reflexivity|].
    exists ws, a, t. split; auto.
  - intros (pre & s & -> & ws & a & t & -> & H). exists pre, ws, a, t. auto.
Qed.

Lemma directive_here_match s :
  directive_here s <-> match_here base_version_pattern s <> None.
Proof.
  split.
  - intros (ws & a & t & H). rewrite (base_version_match _ _ _ _ H). discriminate.
  - destruct (match_here base_version_pattern s) eqn:E; [|congruence].
    intros _. eapply base_version_match_inv; eauto.
Qed.

Lemma directive_here_from_line s :
  directive_here s <-> match_here from_line_pattern s <> None.
Proof.
  split.
  - intros (ws & a & t & H). rewrite (from_line_match _ _ _ _ H). discriminate.
  - destruct (match_here from_line_pattern s) eqn:E; [|congruence].
    intros _. eapply from_line_match_inv; eauto.
Qed.

Lemma skip_from_prefix ws x :
  Str.skip (11 + length ws) ("FROM" ++ ws ++ "ubuntu:" ++ x) = x.
Proof.
  replace (11 + length ws) with (length ("FROM" ++ ws ++ "ubuntu:"))
    by (rewrite !append_length; simpl; lia).
  replace ("FROM" ++ ws ++ "ubuntu:" ++ x) with (("FROM" ++ ws ++ "ubuntu:") ++ x)
    by (now rewrite !append_assoc).
  apply skip_append.
Qed.

Lemma group1_token i s ws a t sp :
  from_shape s ws a t ->
  match_here base_version_pattern s = Some sp ->
  group1 (MkMatch i s sp) = Some (take_while Chars.is_nonspace (String a t)).
Proof.
  intros Hs Hm. pose proof (base_version_match _ _ _ _ Hs) as Hm'.
  rewrite Hm in Hm'.
  assert (Hsp : sp = MkSpan (11 + length ws + length (take_while Chars.is_nonspace (String a t)))
                   (Some (11 + length ws))
                   (Some (11 + length ws,
                          11 + length ws
                          + length (take_while Chars.is_nonspace (String a t)))))
    by congruence.
  rewrite Hsp. destruct Hs as (-> & _).
  unfold group1. cbn [m_span m_group m_subject].
  rewrite skip_from_prefix.
  set (tok := take_while Chars.is_nonspace (String a t)).
  replace (11 + length ws + length tok - (11 + length ws)) with (length tok) by lia.
  rewrite <- (take_drop_while Chars.is_nonspace (String a t)). fold tok.
  now rewrite take_append.
Qed.

Lemma extract_none_search c :
  extract_base_version c = None <-> search base_version_pattern c = None.
Proof.
  unfold extract_base_version.
  destruct (search base_version_pattern c) as [[i s sp]|] eqn:E; [|tauto].
  split; [|discriminate]. intros H. exfalso.
  unfold search in E. apply search_from_some in E as (pre & _ & Hm & _).
  cbn [m_subject m_span] in Hm.
  destruct (base_version_match_inv _ _ Hm) as (ws & a & t & Hs).
  rewrite (group1_token _ _ _ _ _ _ Hs Hm) in H. discriminate.
Qed.

End Pure.

Import Pure.

(** X1.  extract_base_version returns None exactly when the text contains no
    directive of the form FROM, white space, ubuntu: and a character that
    is not white space, at any position (not only at a line start). *)
Theorem extract_base_version_none (c : string) :
  extract_base_version c = None <-> ~ has_from_directive c.
Proof.
  rewrite extract_none_search, has_from_directive_iff. unfold search. split.
  - intros H (pre & s & Hc & Hd).
    apply directive_here_match in Hd. apply Hd.
    eapply search_from_none; eauto.
  - intros H. destruct (search_from base_version_pattern 0 c) as [m|] eqn:E; auto.
    exfalso. apply H.
    apply search_from_some in E as (pre & Hc & Hm & _).
    exists pre, (m_subject m). split; auto.
    apply directive_here_match. congruence.
Qed.

(** X2.  When extract_base_version returns a version, the version is not
    empty and has no white space, and it is the whole token after ubuntu:
    in the leftmost directive of the text: the text is some prefix, FROM,
    white space, ubuntu:, the version, and a rest that is empty or starts
    with white space, and no directive starts earlier in the text. *)
Theorem extract_base_version_token (c v : string) :
  extract_base_version c = Some v ->
  v <> "" /\ Str.forallb Chars.is_nonspace v = true
  /\ exists pre ws rest,
       c = pre ++ "FROM" ++ ws ++ "ubuntu:" ++ v ++ rest
       /\ ws <> "" /\ Str.forallb Chars.is_space ws = true
       /\ stops Chars.is_nonspace rest = true
       /\ forall pre' s', c = pre' ++ s' -> length pre' < length pre ->
                          ~ directive_here s'.
Proof.
  unfold extract_base_version, search.
  destruct (search_from base_version_pattern 0 c) as [[i s sp]|] eqn:E;
    [|discriminate].
  intros Hg.
  apply search_from_some in E as (pre & Hc & Hm & Hleft).
  cbn [m_subject m_span] in *.
  destruct (base_version_match_inv _ _ Hm) as (ws & a & t & Hs).
  rewrite (group1_token _ _ _ _ _ _ Hs Hm) in Hg.
  assert (Hv : v = take_while Chars.is_nonspace (String a t)) by congruence.
  clear Hg. destruct Hs as (-> & Hne & Hws & Ha).
  split; [rewrite Hv; cbn [take_while]; rewrite Ha; discriminate|].
  split; [rewrite Hv; apply take_while_all|].
  exists pre, ws, (Str.drop_while Chars.is_nonspace (String a t)).
  rewrite Hv, take_drop_while. repeat split; auto.
  - apply drop_while_stops.
  - intros pre' s' Hc' Hlen Hd. apply directive_here_match in Hd.
    apply Hd. eapply Hleft; eauto.
Qed.

Module Subst.

Lemma U_no_directive v c :
  (forall pre s, c = pre ++ s -> match_here from_line_pattern s = None) ->
  U v c = c.
Proof.
  induction c as [|x c IH]; intros H; [reflexivity|].
  rewrite U_nomatch by (apply (H ""); reflexivity).
  f_equal. apply IH. intros pre s ->. apply (H (String x pre)). reflexivity.
Qed.

Lemma drop_while_length p s : length (Str.drop_while p s) <= length s.
Proof.
  induction s as [|c s IH]; simpl; auto. destruct (p c); simpl; lia.
Qed.

Lemma U_nomatch_kept v c s :
  match_here from_line_pattern (String c s) = None ->
  match_here from_line_pattern (String c (U v s)) = None.
Proof.
  intros H.
  destruct (match_here from_line_pattern (String c (U v s))) eqn:F; auto.
  exfalso.
  apply from_line_match_inv in F.
  apply (shape_transfer c _ s (agree_U v s)) in F as (ws & a & t & Hs).
  rewrite (from_line_match _ _ _ _ Hs) in H. discriminate.
Qed.

Lemma U_U v1 v2 c :
  v1 <> "" -> Str.forallb Chars.is_nonspace v1 = true ->
  U v2 (U v1 c) = U v2 c.
Proof.
  intros Hne Hv.
  remember (length c) as n eqn:En.
  revert c En; induction n as [n IH] using lt_wf_ind; intros c En.
  destruct c as [|x c]; [reflexivity|].
  destruct (match_here from_line_pattern (String x c)) as [sp|] eqn:E.
  - destruct (from_line_match_inv _ _ E) as (ws & a & t & Hs).
    rewrite (U_match v1 _ _ _ _ Hs), (U_match v2 _ _ _ _ Hs).
    set (rest := Str.drop_while Chars.is_nonspace (String a t)).
    assert (Hrest : stops Chars.is_nonspace (U v1 rest) = true)
      by apply U_stops, drop_while_stops.
    destruct v1 as [|a0 v0] eqn:Ev; [congruence|].
    simpl in Hv. apply andb_prop in Hv as [Ha0 Hv0].
    assert (Hshape : from_shape ("FROM" ++ " " ++ "ubuntu:" ++ String a0 v0 ++ U (String a0 v0) rest)
                                " " a0 (v0 ++ U (String a0 v0) rest)).
    { repeat split; auto. discriminate. }
    rewrite (U_match v2 _ _ _ _ Hshape).
    do 4 f_equal.
    change (String a0 (v0 ++ U (String a0 v0) rest))
      with (String a0 v0 ++ U (String a0 v0) rest).
    rewrite drop_while_app; auto.
    + apply (IH (length rest)); auto.
      destruct Hs as (Hs & _). subst n. rewrite Hs, !append_length.
      pose proof (drop_while_length Chars.is_nonspace (String a t)).
      fold rest in H. simpl. simpl in H. lia.
    + simpl. now rewrite Ha0.
  - rewrite (U_nomatch v1 _ _ E), (U_nomatch v2 _ _ E).
    rewrite (U_nomatch v2) by now apply U_nomatch_kept.
    f_equal. apply (IH (length c)); auto. simpl in En. lia.
Qed.

End Subst.

Import Subst.

(** X3.  When extract_base_version finds no base version in a Dockerfile,
    update_dockerfile_content returns the Dockerfile unchanged (for a
    version without backslash, which re.sub would read as an escape). *)
Theorem update_without_directive (c v : string) :
  extract_base_version c = None -> no_backslash v ->
  update_dockerfile_content c v = Ret c.
Proof.
  intros Hc Hv. rewrite update_literal by auto. f_equal.
  apply U_no_directive. intros pre s Hs.
  apply extract_none_search in Hc. unfold search in Hc.
  pose proof (search_from_none _ _ _ Hc pre s Hs) as Hn.
  destruct (match_here from_line_pattern s) eqn:E; auto.
  exfalso. apply from_line_match_inv in E as (ws & a & t & Hsh).
  rewrite (base_version_match _ _ _ _ Hsh) in Hn. discriminate.
Qed.

(** X4.  Updating an updated Dockerfile gives what updating the original
    gives: the second version replaces the first in every directive and
    nothing else changes.  The first version is a non-empty token without
    white space, and neither version has a backslash. *)
Theorem update_twice (c v1 v2 u : string) :
  v1 <> "" -> Str.forallb Chars.is_nonspace v1 = true ->
  no_backslash v1 -> no_backslash v2 ->
  update_dockerfile_content c v1 = Ret u ->
  update_dockerfile_content u v2 = update_dockerfile_content c v2.
Proof.
  intros Hne Hv Hb1 Hb2 Hu.
  rewrite update_literal in Hu by auto. injection Hu as <-.
  rewrite !update_literal by auto. f_equal. now apply U_U.
Qed.

(** ** Image tags and test results *)

Module TagFacts.

Ltac all_chars c :=
  destruct c as [b0 b1 b2 b3 b4 b5 b6 b7];
  destruct b0, b1, b2, b3, b4, b5, b6, b7.

Lemma sanitize_char_tag c : tag_char (sanitize_char c) = true.
Proof. all_chars c; vm_compute; reflexivity. Qed.

Lemma sanitize_char_fixed c : tag_char c = true -> sanitize_char c = c.
Proof. all_chars c; vm_compute; congruence. Qed.

Lemma map_length f s : length (Str.map f s) = length s.
Proof. induction s; simpl; congruence. Qed.

Lemma map_forallb f p s :
  (forall c, p (f c) = true) -> Str.forallb p (Str.map f s) = true.
Proof. intros H. induction s; simpl; auto. now rewrite H, IHs. Qed.

Lemma map_fixed f p s :
  (forall c, p c = true -> f c = c) -> Str.forallb p s = true -> Str.map f s = s.
Proof.
  intros H. induction s as [|c s IH]; simpl; auto.
  intros Hs. apply andb_prop in Hs as [Hc Hs]. now rewrite (H _ Hc), IH.
Qed.

End TagFacts.

(** X5.  sanitize_image_tag never fails; its result has the length of the
    tag, consists of lower-case letters, digits, underscore, dot and hyphen
    only, and is left unchanged by a second sanitisation. *)
Theorem sanitize_image_tag_conforms (tag : string) :
  exists t,
    sanitize_image_tag tag = Ret t
    /\ length t = length tag
    /\ Str.forallb tag_char t = true
    /\ sanitize_image_tag t = Ret t.
Proof.
  exists (Str.map sanitize_char tag). rewrite !sanitize_image_tag_eq.
  split; [reflexivity|]. split; [apply TagFacts.map_length|].
  assert (H : Str.forallb tag_char (Str.map sanitize_char tag) = true)
    by apply TagFacts.map_forallb, TagFacts.sanitize_char_tag.
  split; auto. f_equal.
  apply (TagFacts.map_fixed sanitize_char tag_char); auto.
  apply TagFacts.sanitize_char_fixed.
Qed.

(** X6.  A tag made of lower-case letters, digits, underscore, dot and hyphen
    only is returned unchanged by sanitize_image_tag. *)
Theorem sanitize_image_tag_keeps (tag : string) :
  Str.forallb tag_char tag = true -> sanitize_image_tag tag = Ret tag.
Proof.
  intros H. rewrite sanitize_image_tag_eq. f_equal.
  apply (TagFacts.map_fixed sanitize_char tag_char); auto.
  apply TagFacts.sanitize_char_fixed.
Qed.

Module Percent.

Local Open Scope Z_scope.

Lemma div_eucl_exact (p : positive) (k : Z) :
  0 <= k -> Z.div_eucl (Z.pos p * k) (Z.pos p) = (k, 0).
Proof.
  intros Hk.
  pose proof (Z.div_eucl_eq (Z.pos p * k) (Z.pos p) ltac:(lia)) as Hq.
  pose proof (Z.mod_pos_bound (Z.pos p * k) (Z.pos p) ltac:(lia)) as Hr.
  unfold Z.modulo in Hr.
  destruct (Z.div_eucl (Z.pos p * k) (Z.pos p)) as [q r].
  assert (q = k) by nia. subst q. f_equal. lia.
Qed.

Lemma SFdiv_same (p : positive) :
  SFdiv prec emax (S754_finite false p 0) (S754_finite false p 0)
  = S754_finite false 4503599627370496 (-52).
Proof.
  unfold SFdiv, SFdiv_core_binary.
  replace (Zdigits2 (Z.pos p) + 0 - (Zdigits2 (Z.pos p) + 0)) with 0 by lia.
  change (Z.min (fexp prec emax 0) (0 - 0)) with (-53).
  change (0 - 0 - -53) with 53.
  cbv iota. rewrite Z.shiftl_mul_pow2 by lia.
  rewrite div_eucl_exact by lia.
  assert (Hl : new_location (Z.pos p) 0 = loc_Exact).
  { unfold new_location. destruct (Z.even (Z.pos p)); reflexivity. }
  rewrite Hl. vm_compute. reflexivity.
Qed.

Lemma int_true_div_same a : 0 < a -> int_true_div a a = Ret (float_of_int 1).
Proof.
  intros Ha. destruct a as [|p|p]; try lia.
  unfold int_true_div. cbn [Z.ltb Z.compare Z.abs Z.to_pos].
  rewrite SFdiv_same. reflexivity.
Qed.

Lemma int_true_div_zero b :
  0 < b -> int_true_div 0 b = Ret (S754_zero false).
Proof. intros Hb. destruct b as [|p|p]; try lia. reflexivity. Qed.

Lemma captured_count_nonneg marker logs default n :
  0 <= default ->
  captured_count (search (count_pattern marker) logs) default = Ret n -> 0 <= n.
Proof.
  intros Hd Hn.
  destruct (captured_count_spec marker logs default) as (n' & Hn' & Hs).
  rewrite Hn in Hn'. injection Hn' as <-.
  destruct Hs as [H|[_ ->]]; auto. eapply count_found_nonneg; eauto.
Qed.

End Percent.

(** X7.  The counts returned by parse_test_results are never negative.  With
    no failed case and some passed case the percentage is the float 100.0
    exactly; with no passed case and some failed case it is the float 0.0;
    with both counts zero it is the integer 0. *)
Theorem parse_test_results_extremes (logs : string) (passed failed : Z)
        (pct : number) :
  parse_test_results logs = Ret (passed, failed, pct) ->
  (0 <= passed)%Z /\ (0 <= failed)%Z
  /\ (failed = 0%Z -> (0 < passed)%Z -> pct = PyFloat (float_of_int 100))
  /\ (passed = 0%Z -> (0 < failed)%Z -> pct = PyFloat (S754_zero false))
  /\ (passed = 0%Z -> failed = 0%Z -> pct = PyInt 0).
Proof.
  unfold parse_test_results.
  change pass_pattern with (count_pattern "Tests Passed:").
  change fail_pattern with (count_pattern "Tests Failed:").
  destruct (captured_count (search (count_pattern "Tests Passed:") logs) 1)
    as [p|e] eqn:Hp; [|discriminate].
  destruct (captured_count (search (count_pattern "Tests Failed:") logs) 0)
    as [f|e] eqn:Hf; [|discriminate].
  apply Percent.captured_count_nonneg in Hp; [|lia].
  apply Percent.captured_count_nonneg in Hf; [|lia].
  destruct (Z.ltb 0 (p + f)) eqn:Et.
  - destruct (int_true_div p (p + f)) as [q|e] eqn:Hq; [|discriminate].
    intros [= <- <- <-]. repeat split; auto.
    + intros -> Hpos. rewrite Z.add_0_r, Percent.int_true_div_same in Hq by auto.
      injection Hq as <-. reflexivity.
    + intros -> Hpos. rewrite Percent.int_true_div_zero in Hq by auto.
      injection Hq as <-. reflexivity.
    + intros -> ->. discriminate.
  - apply Z.ltb_ge in Et. intros [= <- <- <-]. repeat split; auto; intros; lia.
Qed.

(** ** The text kept from a generated answer *)

Module Cut.

Lemma prefix_app d s : prefix d s = true <-> exists b, s = d ++ b.
Proof.
  revert s; induction d as [|c d IH]; intros s.
  - simpl. destruct s; split; eauto.
  - destruct s as [|c' s]; simpl.
    + split; [discriminate|]. intros (b & H). discriminate.
    + destruct (ascii_dec c c') as [<-|Hn].
      * rewrite IH. split; intros (b & H); exists b; congruence.
      * split; [discriminate|]. intros (b & H). congruence.
Qed.

Lemma split_once_some d s a b :
  Str.split_once d s = Some (a, b) ->
  s = a ++ d ++ b
  /\ forall a' b', s = a' ++ d ++ b' -> length a <= length a'.
Proof.
  revert a b; induction s as [|c s IH]; intros a b H.
  - cbn [Str.split_once] in H. destruct (prefix d "") eqn:E; [|discriminate].
    injection H as <- <-. apply prefix_app in E as (b & E).
    destruct d; [|discriminate]. split; [reflexivity|]. simpl; intros; lia.
  - cbn [Str.split_once] in H.
    destruct (prefix d (String c s)) eqn:E.
    + injection H as <- <-. apply prefix_app in E as (b & E).
      split; [|simpl; intros; lia].
      rewrite E. simpl. now rewrite skip_append.
    + destruct (Str.split_once d s) as [[a0 b0]|] eqn:F; [|discriminate].
      injection H as <- <-. destruct (IH _ _ eq_refl) as (Hs & Hmin).
      split; [simpl; congruence|].
      intros a' b' Hs'. destruct a' as [|c' a'].
      * exfalso. assert (prefix d (String c s) = true); [|congruence].
        apply prefix_app. eauto.
      * simpl in Hs'. injection Hs' as -> Hs'. simpl.
        apply le_n_S. eapply Hmin; eauto.
Qed.

Lemma split_once_none d s : Str.split_once d s = None -> ~ occurs d s.
Proof.
  induction s as [|c s IH]; intros H (a & b & Hs).
  - cbn [Str.split_once] in H. destruct (prefix d "") eqn:E; [discriminate|].
    destruct a; [|discriminate]. simpl in Hs.
    assert (prefix d "" = true) by (apply prefix_app; eauto). congruence.
  - cbn [Str.split_once] in H.
    destruct (prefix d (String c s)) eqn:E; [discriminate|].
    destruct (Str.split_once d s) as [[a0 b0]|] eqn:F; [discriminate|].
    destruct a as [|c' a].
    + simpl in Hs. assert (prefix d (String c s) = true); [|congruence].
      apply prefix_app. eauto.
    + simpl in Hs. injection Hs as -> Hs. apply IH; auto. exists a, b. auto.
Qed.

Lemma contains_false d s : contains d s = false <-> ~ occurs d s.
Proof.
  unfold contains. destruct (Str.split_once d s) as [[a b]|] eqn:E.
  - split; [discriminate|]. intros H. exfalso. apply H.
    apply split_once_some in E as (-> & _). exists a, b. reflexivity.
  - split; auto. intros _. now apply split_once_none.
Qed.

Lemma occurs_inside d l m r : occurs d m -> occurs d (l ++ m ++ r).
Proof.
  intros (a & b & ->). exists (l ++ a), (b ++ r).
  now rewrite !append_assoc.
Qed.

Lemma before_free d s a b :
  d <> "" -> Str.split_once d s = Some (a, b) -> ~ occurs d a.
Proof.
  intros Hd H (x & y & Ha). apply split_once_some in H as (Hs & Hmin).
  assert (Hx : s = x ++ d ++ y ++ d ++ b)
    by (rewrite Hs, Ha, !append_assoc; reflexivity).
  apply Hmin in Hx. rewrite Ha, !append_length in Hx.
  destruct d; [congruence|]. simpl in Hx. lia.
Qed.

(** [strip] keeps a part of its argument. *)
Lemma rev_onto_app s acc : Str.rev_onto s acc = Str.rev s ++ acc.
Proof.
  unfold Str.rev. revert acc; induction s as [|c s IH]; intros acc; simpl; auto.
  rewrite IH, (IH (String c "")), append_assoc. reflexivity.
Qed.

Lemma rev_cons c s : Str.rev (String c s) = Str.rev s ++ String c "".
Proof. unfold Str.rev at 1. simpl. apply rev_onto_app. Qed.

Lemma rev_app a b : Str.rev (a ++ b) = Str.rev b ++ Str.rev a.
Proof.
  induction a as [|c a IH]; simpl.
  - now rewrite append_nil_r.
  - now rewrite !rev_cons, IH, append_assoc.
Qed.

Lemma rev_rev s : Str.rev (Str.rev s) = s.
Proof.
  induction s as [|c s IH]; auto.
  now rewrite rev_cons, rev_app, IH.
Qed.

Lemma strip_inside s : exists l r, s = l ++ Str.strip s ++ r.
Proof.
  unfold Str.strip.
  set (y := Str.drop_while Chars.is_space s).
  exists (take_while Chars.is_space s),
         (Str.rev (take_while Chars.is_space (Str.rev y))).
  rewrite <- rev_app, take_drop_while, rev_rev. unfold y.
  now rewrite take_drop_while.
Qed.

Lemma strip_free d s : ~ occurs d s -> ~ occurs d (Str.strip s).
Proof.
  intros H Ho. apply H. destruct (strip_inside s) as (l & r & Hs).
  rewrite Hs. now apply occurs_inside.
Qed.

Lemma cut_free d s :
  d <> "" ->
  ~ occurs d (match Str.split_once d s with
              | Some (before, _) => Str.strip before
              | None => s
              end).
Proof.
  intros Hd. destruct (Str.split_once d s) as [[a b]|] eqn:E.
  - apply strip_free. eapply before_free; eauto.
  - now apply split_once_none.
Qed.

Lemma cut_keeps d d' s :
  ~ occurs d' s ->
  ~ occurs d' (match Str.split_once d s with
               | Some (before, _) => Str.strip before
               | None => s
               end).
Proof.
  intros H. destruct (Str.split_once d s) as [[a b]|] eqn:E; auto.
  apply strip_free. intros Ho. apply H.
  apply split_once_some in E as (-> & _).
  apply (occurs_inside d' "" a (d ++ b)) in Ho. exact Ho.
Qed.

End Cut.

(** X8.  The text that fix_dockerfile_with_llm keeps from a generated answer
    contains neither of the stop markers Note: and Note that. *)
Theorem extract_fixed_has_no_note (generated_text : string) :
  contains "Note:" (extract_fixed generated_text) = false
  /\ contains "Note that" (extract_fixed generated_text) = false.
Proof.
  rewrite !Cut.contains_false. unfold extract_fixed. split.
  - apply Cut.cut_keeps. apply Cut.cut_free. discriminate.
  - apply Cut.cut_free. discriminate.
Qed.

Local Open Scope list_scope.

(** ** The repair client and the build wrapper *)

Section Client.

Context {W : Type} (env : Env W).

Lemma fix_try_usable c l w t :
  outcome (fix_dockerfile_try env c l w) = Ret (Some t) <->
  exists s, answers_with (fst (requests_post env (prompt_of c l) w)) s
            /\ Str.strip s <> ""%string
            /\ t = extract_fixed (Str.strip s).
Proof.
  unfold fix_dockerfile_try. rewrite bind_call.
  destruct (requests_post env (prompt_of c l) w) as [o w1]. cbn [fst snd].
  split.
  - destruct o as [e|code text body]; [discriminate|].
    destruct (Z.eqb code 200) eqn:Ec; cbn [negb]; [|discriminate].
    apply Z.eqb_eq in Ec. subst code.
    destruct body as [j|e]; [|discriminate]. rewrite bind_lift_ret.
    destruct j as [| | | |items|d]; try discriminate.
    + (* a string *)
      cbn [has_error]. rewrite bind_lift_ret.
      destruct (contains "error" s); [discriminate|].
      destruct s as [|ch s]; [discriminate|].
      cbn [first_item]. rewrite bind_lift_ret. discriminate.
    + (* a list *)
      cbn [has_error]. rewrite bind_lift_ret.
      destruct (existsb (is_str "error") items) eqn:Ee; [discriminate|].
      destruct items as [|x rest]; [discriminate|].
      cbn [first_item]. rewrite bind_lift_ret.
      cbn [existsb] in Ee. apply orb_false_elim in Ee as [_ Ee].
      destruct x as [| | | | |d]; try discriminate.
      cbn [generated_text_of].
      destruct (dict_get "generated_text" d) as [[| | |s| |]|] eqn:Eg;
        try discriminate.
      rewrite bind_lift_ret.
      destruct (String.eqb (Str.strip s) "") eqn:Es; [discriminate|].
      unfold ret. rewrite outcome_eq. intros [= <-].
      exists s. split; [exists text, d, rest; auto|].
      apply String.eqb_neq in Es. auto.
    + (* an object *)
      cbn [has_error]. rewrite bind_lift_ret.
      destruct (dict_get "error" d) eqn:Ed.
      * cbn [error_field]. rewrite Ed, bind_lift_ret. discriminate.
      * discriminate.
  - intros (s & (text & d & rest & -> & Ee & Eg) & Hs & ->).
    cbn [Z.eqb Pos.eqb negb]. rewrite bind_lift_ret.
    cbn [has_error existsb is_str orb]. rewrite Ee, bind_lift_ret.
    cbn [first_item]. rewrite bind_lift_ret.
    cbn [generated_text_of]. rewrite Eg, bind_lift_ret.
    apply String.eqb_neq in Hs. rewrite Hs. reflexivity.
Qed.

(** X9.  fix_dockerfile_with_llm returns a text, and not None, exactly when the
    service answers with status 200 and a JSON list that starts with an
    object whose generated_text is a string with something besides white
    space, and that has no item equal to the string error after it; what
    is returned is then the text kept from the stripped generated text. *)
Theorem repair_client_usable (dockerfile_content error_logs : string) (w : W)
        (fixed : string) :
  outcome (fix_dockerfile_with_llm env dockerfile_content error_logs w)
  = Ret (Some fixed) <->
  exists s,
    answers_with
      (fst (requests_post env (prompt_of dockerfile_content error_logs) w)) s
    /\ Str.strip s <> ""%string
    /\ fixed = extract_fixed (Str.strip s).
Proof.
  rewrite fix_outcome, <- fix_try_usable.
  destruct (outcome (fix_dockerfile_try env dockerfile_content error_logs w));
    split; congruence.
Qed.

(** X10.  build_image never raises.  It calls the build once, returns a
    triple of a flag, an error message and the log, the message is None
    exactly when the flag is true, and after a failure with a non-empty
    log the message is the concatenation of the log. *)
Theorem build_image_contract (dockerfile_name image_tag build_context : string)
        (w : W) :
  exists ok msg logs,
    outcome (build_image env dockerfile_name image_tag build_context w)
    = Ret (ok, msg, logs)
    /\ trace (build_image env dockerfile_name image_tag build_context w)
       = [EvBuild dockerfile_name image_tag build_context ok logs]
    /\ (ok = true <-> msg = None)
    /\ (ok = false -> logs <> [] -> msg = Some (Str.join logs)).
Proof.
  unfold build_image. rewrite bind_call.
  destruct (images_build env build_context dockerfile_name image_tag w)
    as [[l|l|e] w1]; cbn [fst snd]; rewrite bind_emit; unfold ret;
    rewrite !outcome_eq, !trace_eq; cbn [fst snd];
    do 3 eexists; (split; [reflexivity|]); (split; [reflexivity|]);
    split; try (split; congruence); congruence.
Qed.

End Client.

(** ** One artifact and one Ubuntu version *)

Module Summary.

Lemma build_names_app a b : build_names (a ++ b) = build_names a ++ build_names b.
Proof. induction a as [|[] a IH]; simpl; congruence. Qed.

Lemma build_flags_app a b : build_flags (a ++ b) = build_flags a ++ build_flags b.
Proof. induction a as [|[] a IH]; simpl; congruence. Qed.

Lemma runs_app a b : container_runs (a ++ b) = container_runs a ++ container_runs b.
Proof. induction a as [|[] a IH]; simpl; congruence. Qed.

Lemma build_flags_names tr : List.length (build_names tr) = List.length (build_flags tr).
Proof. induction tr as [|[] tr IH]; simpl; congruence. Qed.

Section Shapes.

Variables (bibcode_dir bibcode base_version ubuntu_version : string).
Variables (content image_tag : string).

(** The retry loop: [k] rebuilds take the counter from [retry_count st] to
    [retry_count st + k]. *)
Lemma loop_summary st tr st' :
  loop_shape bibcode_dir ubuntu_version content image_tag st tr st' ->
  exists k,
    retry_count st' = retry_count st + k
    /\ (retry_count st <= max_retries -> retry_count st' <= max_retries)
    /\ build_names tr
       = map (fixed_dockerfile_name ubuntu_version) (seq (retry_count st + 1) k)
    /\ success st :: build_flags tr = repeat (success st) k ++ [success st']
    /\ (k <> 0 -> success st = false)
    /\ container_runs tr = [] /\ rows tr = []
    /\ k <= List.length (repairs tr) <= k + 1
    /\ (success st' = true -> List.length (repairs tr) = k).
Proof.
  induction 1 as [st H|st Hs Hr|st fixed Hs Hr|st fixed s e l tr st' Hs Hr Hse Hl IH].
  1-3: exists 0; simpl; rewrite Nat.add_0_r; repeat split; auto; try lia;
       congruence.
  destruct IH as (k & Hk & Hb & Hn & Hf & Hk0 & Hru & Hro & Hre & Hres).
  cbn [retry_count success] in *.
  exists (S k). cbn [build_names build_flags container_runs rows repairs List.length].
  split; [lia|]. split; [lia|]. split.
  { cbn [seq map]. rewrite Hn. unfold fixed_dockerfile_name at 2.
    now replace (retry_count st + 1 + 1) with (S (retry_count st + 1)) by lia. }
  split.
  { rewrite Hs. cbn [repeat app]. f_equal.
    destruct k as [|k].
    - simpl in Hf. injection Hf as -> Hf. rewrite Hf. reflexivity.
    - assert (s = false) as -> by (apply Hk0; discriminate). exact Hf. }
  split; [auto|]. split; [auto|]. split; [auto|]. split; [lia|].
  intros Ht. specialize (Hres Ht). lia.
Qed.

End Shapes.

Lemma repair_logs_follow_quiet cur tr :
  repairs tr = [] -> build_names tr = [] -> repair_logs_follow cur tr.
Proof.
  induction tr as [|[] tr IH]; simpl; auto; discriminate.
Qed.

Lemma repair_logs_follow_app cur a b :
  repair_logs_follow cur a -> repairs b = [] -> build_names b = [] ->
  repair_logs_follow cur (a ++ b).
Proof.
  revert cur; induction a as [|e a IH]; intros cur Ha Hb1 Hb2.
  - now apply repair_logs_follow_quiet.
  - destruct e; simpl in *; auto. destruct Ha. split; auto.
Qed.

Lemma loop_logs_follow bibcode_dir ubuntu_version content image_tag st tr st' :
  loop_shape bibcode_dir ubuntu_version content image_tag st tr st' ->
  repair_logs_follow (build_logs st) tr.
Proof. induction 1; simpl; auto. Qed.

Lemma record_summary bibcode base_version ubuntu_version image_tag st serial_no tr :
  record_shape bibcode base_version ubuntu_version image_tag st serial_no tr ->
  build_names tr = [] /\ build_flags tr = [] /\ repairs tr = []
  /\ container_runs tr = (if success st then [image_tag] else [])
  /\ exists r,
       rows tr = [r]
       /\ (success st = false ->
           modifications r = retries_note (retry_count st)
           /\ cases_passed r = 0%Z /\ cases_failed r = 0%Z
           /\ pass_percentage r = PyInt 0)
       /\ (success st = true -> modifications r = ""%string).
Proof.
  destruct 1 as [out p f pct Hs Hp|msg Hs|msg Hs Hm]; rewrite Hs; simpl;
    repeat split; eexists; (split; [reflexivity|]); simpl;
    split; auto; congruence.
Qed.

Lemma version_summary bibcode_dir bibcode base_version content ubuntu_version
      serial_no r tr :
  version_shape bibcode_dir bibcode base_version content ubuntu_version
    serial_no r tr ->
  (build_names tr = [] /\ build_flags tr = [] /\ container_runs tr = [] /\ rows tr = []
   /\ repairs tr = [])
  \/ exists k final row, pair_summary bibcode ubuntu_version tr k final row.
Proof.
  destruct 1 as [e He|u Hu Hb|u Hu|u s e l tr1 st' tr2 Hu Hloop Hrec];
    [left; simpl; auto ..|right].
  destruct (loop_summary _ _ _ _ _ _ _ Hloop)
    as (k & Hk & Hb & Hn & Hf & Hk0 & Hru & Hro & Hre & Hres).
  destruct (record_summary _ _ _ _ _ _ _ Hrec)
    as (Rn & Rf & Rr & Rru & row & Rro & Rfail & Rok).
  cbn [retry_count success] in *.
  assert (Hk' : retry_count st' = k) by lia.
  exists k, (success st'), row.
  constructor; cbn [build_names build_flags container_runs rows repairs].
  - rewrite <- Hk'. apply Hb. lia.
  - rewrite build_names_app, Rn, List.app_nil_r, Hn. reflexivity.
  - rewrite build_flags_app, Rf, List.app_nil_r.
    destruct k as [|k].
    + simpl in Hf. injection Hf as -> Hf. rewrite Hf. reflexivity.
    + assert (s = false) as -> by (apply Hk0; discriminate). exact Hf.
  - now rewrite runs_app, Hru, Rru.
  - now rewrite rows_app, Hro, Rro.
  - rewrite repairs_app, Rr, List.app_nil_r. lia.
  - rewrite repairs_app, Rr, List.app_nil_r. lia.
  - rewrite repairs_app, Rr, List.app_nil_r. exact Hres.
  - intros Hfin. rewrite <- Hk'. auto.
  - exact Rok.
Qed.

End Summary.

Import Summary.

Module Flags.

Lemma last_final k (final : bool) d : last (repeat false k ++ [final]) d = final.
Proof. apply last_last. Qed.

Lemma length_final k (final : bool) :
  List.length (repeat false k ++ [final]) = k + 1.
Proof. rewrite length_app, repeat_length. reflexivity. Qed.

Lemma nth_before_final k (final : bool) i :
  S i < List.length (repeat false k ++ [final]) ->
  nth i (repeat false k ++ [final]) true = false.
Proof.
  rewrite length_final. intros H.
  rewrite app_nth1 by (rewrite repeat_length; lia).
  apply nth_repeat_lt. lia.
Qed.

End Flags.

Section PairExtras.

Context {W : Type} (env : Env W).
Variables (bibcode_dir bibcode base_version dockerfile_content
           ubuntu_version : string).
Variables (serial_no : Z) (w : W).

Local Abbreviation tr :=
  (trace (process_version env bibcode_dir bibcode base_version
            dockerfile_content ubuntu_version serial_no w)) (only parsing).

Lemma pair_cases :
  (build_names tr = [] /\ build_flags tr = [] /\ container_runs tr = [] /\ rows tr = []
   /\ repairs tr = [])
  \/ exists k final row, pair_summary bibcode ubuntu_version tr k final row.
Proof.
  eapply version_summary.
  apply (process_version_run env bibcode_dir bibcode base_version
           ubuntu_version dockerfile_content serial_no w).
Qed.

(** X11.  For one artifact and one Ubuntu version, the Dockerfiles built are,
    in order, Dockerfile_<version> and then Dockerfile_<version>_fixed_1,
    _fixed_2, ... without gaps, with at most max_retries fixed ones (or
    nothing is built at all). *)
Theorem build_files_in_order :
  build_names tr = []
  \/ exists k,
       k <= max_retries
       /\ build_names tr
          = ("Dockerfile_" ++ ubuntu_version)%string
            :: map (fixed_dockerfile_name ubuntu_version) (seq 1 k).
Proof.
  destruct pair_cases as [(H & _)|(k & final & row & H)]; [now left|right].
  exists k. split; [apply (sum_bound _ _ _ _ _ _ H)|apply (sum_names _ _ _ _ _ _ H)].
Qed.

(** X12.  For one artifact and one Ubuntu version, every build but the last
    one has failed: nothing is built after a successful build. *)
Theorem builds_stop_at_success (i : nat) :
  S i < List.length (build_flags tr) -> nth i (build_flags tr) true = false.
Proof.
  destruct pair_cases as [(_ & H & _)|(k & final & row & H)].
  - rewrite H. simpl. lia.
  - rewrite (sum_flags _ _ _ _ _ _ H). apply Flags.nth_before_final.
Qed.

(** X13.  For one artifact and one Ubuntu version, run_container is called
    once, with the image tag of the pair, when the last build succeeded, and
    is not called when the last build failed or nothing was built. *)
Theorem container_run_after_success :
  container_runs tr = if last (build_flags tr) false
            then [image_tag_of bibcode ubuntu_version] else [].
Proof.
  destruct pair_cases as [(_ & H & Hr & _)|(k & final & row & H)].
  - now rewrite H, Hr.
  - rewrite (sum_flags _ _ _ _ _ _ H), Flags.last_final.
    apply (sum_runs _ _ _ _ _ _ H).
Qed.

(** X14.  The row recorded for a pair whose last build failed has zero passed
    and failed cases, percentage 0 and a note with the number of rebuilds
    of repaired Dockerfiles (the builds after the first), which is at most
    max_retries; the row of a pair whose last build succeeded has an empty
    note. *)
Theorem note_counts_rebuilds (r : row) :
  In r (rows tr) ->
  if last (build_flags tr) false
  then modifications r = ""%string
  else modifications r = retries_note (List.length (build_flags tr) - 1)
       /\ List.length (build_flags tr) - 1 <= max_retries
       /\ cases_passed r = 0%Z /\ cases_failed r = 0%Z
       /\ pass_percentage r = PyInt 0.
Proof.
  destruct pair_cases as [(_ & _ & _ & H & _)|(k & final & row & H)].
  - rewrite H. intros [].
  - rewrite (sum_rows _ _ _ _ _ _ H). intros [<-|[]].
    rewrite (sum_flags _ _ _ _ _ _ H), Flags.last_final, Flags.length_final.
    replace (k + 1 - 1) with k by lia.
    destruct final.
    + now apply (sum_success _ _ _ _ _ _ H).
    + destruct (sum_failure _ _ _ _ _ _ H eq_refl) as (H1 & H2 & H3 & H4).
      repeat split; auto. apply (sum_bound _ _ _ _ _ _ H).
Qed.

(** X15.  For one artifact and one Ubuntu version, the number of calls of the
    repair client is the number of rebuilds or one more (a last call that
    gave nothing usable, or whose Dockerfile could not be written); when
    the last build succeeded it is exactly the number of rebuilds. *)
Theorem repairs_match_rebuilds :
  List.length (build_flags tr) - 1 <= List.length (repairs tr)
  /\ List.length (repairs tr) <= List.length (build_flags tr)
  /\ (last (build_flags tr) false = true ->
      List.length (repairs tr) = List.length (build_flags tr) - 1).
Proof.
  destruct pair_cases as [(_ & H & _ & _ & Hr)|(k & final & row & H)].
  - rewrite H, Hr. simpl. repeat split; auto; discriminate.
  - rewrite (sum_flags _ _ _ _ _ _ H), Flags.last_final, Flags.length_final.
    replace (k + 1 - 1) with k by lia.
    pose proof (sum_repairs_lower _ _ _ _ _ _ H).
    pose proof (sum_repairs_upper _ _ _ _ _ _ H).
    repeat split; auto. apply (sum_repairs_success _ _ _ _ _ _ H).
Qed.

(** X16.  Every call of the repair client carries, as error logs, the
    concatenation of the last 200 entries of the log of the build made
    just before it. *)
Theorem repair_logs_of_last_build : repair_logs_follow [] tr.
Proof.
  pose proof (process_version_run env bibcode_dir bibcode base_version
                ubuntu_version dockerfile_content serial_no w) as H.
  cbv zeta in H.
  destruct H as [e He|u Hu Hb|u Hu|u s e l tr1 st' tr2 Hu Hloop Hrec]; simpl;
    auto.
  destruct (record_summary _ _ _ _ _ _ _ Hrec) as (Rn & _ & Rr & _).
  apply repair_logs_follow_app; auto.
  apply (loop_logs_follow _ _ _ _ _ _ _ Hloop).
Qed.

End PairExtras.

(** ** The whole run *)

Module Whole.

Lemma subseq_nil_l {A} (l : list A) : subseq [] l.
Proof. induction l; constructor; auto. Qed.

Section Env.

Context {W : Type} (env : Env W).

Lemma trace_bind {A B} (m : M W A) (f : A -> M W B) w :
  trace (bind m f w)
  = trace (m w) ++ match outcome (m w) with
                   | Ret a => trace (f a (world (m w)))
                   | Raise _ => []
                   end.
Proof.
  unfold bind, trace, outcome, world.
  destruct (m w) as [[[a|e] w1] t1]; simpl.
  - now destruct (f a w1) as [[r w2] t2].
  - now rewrite List.app_nil_r.
Qed.

Lemma outcome_bind {A B} (m : M W A) (f : A -> M W B) w :
  outcome (bind m f w)
  = match outcome (m w) with
    | Ret a => outcome (f a (world (m w)))
    | Raise e => Raise e
    end.
Proof.
  unfold bind, trace, outcome, world.
  destruct (m w) as [[[a|e] w1] t1]; simpl; auto.
  now destruct (f a w1) as [[r w2] t2].
Qed.

(** Loops over a list *)

Lemma for_each_rows {A} (P : A -> row -> Prop) (body : A -> Z -> M W Z) l s w :
  (forall a s w, Forall (P a) (rows (trace (body a s w)))) ->
  Forall (fun r => exists a, In a l /\ P a r)
         (rows (trace (for_each body l s w))).
Proof.
  intros Hb. revert s w; induction l as [|a l IH]; intros s w; cbn [for_each].
  - constructor.
  - rewrite trace_bind, rows_app. apply Forall_app. split.
    + eapply Forall_impl; [|apply Hb]. simpl. intros r Hr. exists a. auto.
    + destruct (outcome (body a s w)); [|constructor].
      eapply Forall_impl; [|apply IH]. simpl. intros r (a' & Hin & Hr). eauto.
Qed.

Lemma for_each_subseq {A} (key : row -> A) (body : A -> Z -> M W Z) l s w :
  (forall a s w, rows (trace (body a s w)) = []
                 \/ exists r, rows (trace (body a s w)) = [r] /\ key r = a) ->
  subseq (map key (rows (trace (for_each body l s w)))) l.
Proof.
  intros Hb. revert s w; induction l as [|a l IH]; intros s w; cbn [for_each].
  - constructor.
  - rewrite trace_bind, rows_app, map_app.
    assert (Hrest : subseq
              (map key (rows match outcome (body a s w) with
                             | Ret a0 => trace (for_each body l a0 (world (body a s w)))
                             | Raise _ => []
                             end)) l).
    { destruct (outcome (body a s w)); [apply IH|apply subseq_nil_l]. }
    destruct (Hb a s w) as [->|(r & -> & <-)]; simpl;
      [apply subseq_skip|apply subseq_keep]; exact Hrest.
Qed.


(** One version *)

Lemma process_version_rows d b bv c v s w :
  let rs := rows (trace (process_version env d b bv c v s w)) in
  rs = []
  \/ exists r, rs = [r] /\ row_ubuntu_version r = v
               /\ row_bibcode r = b /\ row_base_version r = bv.
Proof.
  pose proof (process_version_run env d b bv v c s w) as H. cbv zeta in H.
  cbv zeta.
  destruct H as [e He|u Hu Hb|u Hu|u s0 e l tr1 st' tr2 Hu Hloop Hrec];
    [left; reflexivity ..|right].
  cbn [rows]. rewrite rows_app, (loop_rows _ _ _ _ _ _ _ Hloop).
  destruct Hrec; simpl; eexists; (split; [reflexivity|]); auto.
Qed.



(** One artifact *)


Lemma keep_dirs_returns base names w :
  exists dirs, outcome (keep_dirs env base names w) = Ret dirs
               /\ incl dirs names.
Proof.
  revert w; induction names as [|d names IH]; intros w; cbn [keep_dirs].
  - exists []. split; [reflexivity|]. apply incl_nil_l.
  - rewrite bind_call.
    destruct (os_path_isdir env _ w) as [isdir w1]; cbn [fst snd].
    destruct (IH w1) as (dirs & Hd & Hi).
    rewrite outcome_bind, Hd. unfold ret. rewrite outcome_eq.
    eexists. split; [reflexivity|].
    destruct isdir.
    + apply incl_cons; [now left|]. now apply incl_tl.
    + now apply incl_tl.
Qed.

Lemma load_bibcode_directories_result base specific w :
  match fst (os_listdir env base w) with
  | Raise e =>
      outcome (load_bibcode_directories env base specific w) = Raise e
  | Ret names =>
      exists dirs,
        outcome (load_bibcode_directories env base specific w) = Ret dirs
        /\ incl dirs names
        /\ (falsy specific = false ->
            forall d, In d dirs -> specific = Some d)
  end.
Proof.
  unfold load_bibcode_directories. rewrite bind_call.
  destruct (os_listdir env base w) as [[names|e] w1]; cbn [fst snd].
  2:{ now rewrite bind_lift_raise. }
  rewrite bind_lift_ret.
  destruct (keep_dirs_returns base names w1) as (dirs & Hd & Hi).
  rewrite outcome_bind, Hd.
  destruct (falsy specific) eqn:Ef; cbn [negb].
  - exists dirs. unfold ret. rewrite outcome_eq. repeat split; auto. discriminate.
  - destruct specific as [b|]; [|discriminate].
    destruct (existsb (String.eqb b) dirs) eqn:Ee; unfold ret; rewrite outcome_eq.
    + exists [b]. split; [reflexivity|]. split.
      * apply existsb_exists in Ee as (x & Hx & Hb).
        apply String.eqb_eq in Hb. subst x.
        intros y [<-|[]]. auto.
      * intros _ d [<-|[]]. reflexivity.
    + exists []. split; [reflexivity|]. split; [apply incl_nil_l|].
      intros _ d [].
Qed.

End Env.

End Whole.

Import Summary Whole.

Module WholeRows.

Lemma subseq_length {A} (a b : list A) :
  subseq a b -> List.length a <= List.length b.
Proof. induction 1; simpl; lia. Qed.

Lemma subseq_In {A} (a b : list A) x : subseq a b -> In x a -> In x b.
Proof.
  induction 1; simpl; auto.
  intros [->|H']; auto.
Qed.

Section Env.

Context {W : Type} (env : Env W).

Lemma process_bibcode_rows base b s w :
  let dockerfile_path := path_join (path_join base b) "Dockerfile" in
  let rs := rows (trace (process_bibcode env base b s w)) in
  subseq (map row_ubuntu_version rs) UBUNTU_VERSIONS
  /\ Forall
       (fun r =>
          row_bibcode r = b
          /\ exists content,
               fst (file_read env dockerfile_path
                      (snd (os_path_exists env dockerfile_path w)))
               = Ret content
               /\ extract_base_version content = Some (row_base_version r))
       rs.
Proof.
  intros p. cbv zeta. unfold process_bibcode. fold p. rewrite bind_call.
  destruct (os_path_exists env p w) as [[|] w1]; cbn [fst snd negb].
  2:{ split; [apply subseq_nil_l|constructor]. }
  rewrite bind_call.
  destruct (file_read env p w1) as [[c|e] w2]; cbn [fst snd].
  2:{ split; [apply subseq_nil_l|constructor]. }
  destruct (extract_base_version c) as [bv|] eqn:Eb.
  2:{ split; [apply subseq_nil_l|constructor]. }
  destruct (String.eqb bv "").
  { split; [apply subseq_nil_l|constructor]. }
  split.
  - apply for_each_subseq. intros v s' w'.
    destruct (process_version_rows env (path_join base b) b bv c v s' w')
      as [->|(r & -> & Hv & _)]; [now left|right; eauto].
  - eapply Forall_impl;
      [|apply (for_each_rows
                 (fun (_ : string) r =>
                    row_bibcode r = b /\ row_base_version r = bv))].
    + simpl. intros r (_ & _ & Hb & Hbv). split; auto.
      exists c. rewrite Hbv. auto.
    + intros v s' w'.
      destruct (process_version_rows env (path_join base b) b bv c v s' w')
        as [->|(r & -> & _ & Hb & Hbv)]; repeat constructor; auto.
Qed.

End Env.

End WholeRows.

Section RunExtras.

Context {W : Type} (env : Env W).


(** X18.  The rows recorded for one artifact are at most one per Ubuntu
    version, in the order of UBUNTU_VERSIONS (so at most six); each has the
    Bibcode of the artifact and, as base version, the version extracted
    from the Dockerfile that was read. *)
Theorem artifact_rows (base_directory bibcode : string) (serial_no : Z)
        (w : W) :
  let dockerfile_path :=
    path_join (path_join base_directory bibcode) "Dockerfile" in
  let rs := rows (trace (process_bibcode env base_directory bibcode
                           serial_no w)) in
  subseq (map row_ubuntu_version rs) UBUNTU_VERSIONS
  /\ List.length rs <= 6
  /\ Forall
       (fun r =>
          row_bibcode r = bibcode
          /\ exists content,
               fst (file_read env dockerfile_path
                      (snd (os_path_exists env dockerfile_path w)))
               = Ret content
               /\ extract_base_version content = Some (row_base_version r))
       rs.
Proof.
  intros p rs.
  destruct (WholeRows.process_bibcode_rows env base_directory bibcode
              serial_no w) as (H1 & H2).
  split; [exact H1|]. split; [|exact H2].
  apply WholeRows.subseq_length in H1. rewrite length_map in H1. exact H1.
Qed.

(** X19.  Every row recorded by main is for a name that os.listdir gave for
    the base directory and for one of the UBUNTU_VERSIONS; when a Bibcode
    was requested (not None, not empty) every row is for that Bibcode. *)
Theorem rows_of_processed_artifacts (base_directory : string)
        (specific_bibcode : option string) (w : W) :
  Forall
    (fun r =>
       (exists names,
          fst (os_listdir env base_directory w) = Ret names
          /\ In (row_bibcode r) names)
       /\ (falsy specific_bibcode = false ->
           specific_bibcode = Some (row_bibcode r))
       /\ In (row_ubuntu_version r) UBUNTU_VERSIONS)
    (rows (trace (main env base_directory specific_bibcode w))).
Proof.
  unfold main. rewrite trace_bind.
  rewrite (load_bibcode_directories_silent env). cbn [app].
  pose proof (load_bibcode_directories_result env base_directory
                specific_bibcode w) as H.
  destruct (fst (os_listdir env base_directory w)) as [names|e].
  2:{ rewrite H. constructor. }
  destruct H as (dirs & -> & Hincl & Hspec).
  set (w1 := world (load_bibcode_directories env base_directory
                      specific_bibcode w)).
  assert (Hrun : Forall
            (fun r =>
               (exists names0, Ret names = Ret names0 /\ In (row_bibcode r) names0)
               /\ (falsy specific_bibcode = false ->
                   specific_bibcode = Some (row_bibcode r))
               /\ In (row_ubuntu_version r) UBUNTU_VERSIONS)
            (rows (trace (bind (for_each (process_bibcode env base_directory)
                                  dirs 1%Z)
                               (fun _ => ret tt) w1)))).
  { rewrite trace_bind.
    assert (Hq : rows match outcome (for_each (process_bibcode env base_directory) dirs 1%Z w1) with
                      | Ret a => trace (@ret W unit tt
                                   (world (for_each (process_bibcode env base_directory) dirs 1%Z w1)))
                      | Raise _ => []
                      end = []).
    { now destruct (outcome (for_each (process_bibcode env base_directory) dirs 1%Z w1)). }
    rewrite rows_app, Hq, List.app_nil_r.
    eapply Forall_impl;
      [|apply (for_each_rows
                 (fun b r => row_bibcode r = b
                             /\ In (row_ubuntu_version r) UBUNTU_VERSIONS))].
    - simpl. intros r (b & Hin & <- & Hv). repeat split; auto.
      exists names. split; auto.
    - intros b s w'.
      destruct (WholeRows.process_bibcode_rows env base_directory b s w')
        as (H1 & H2).
      rewrite Forall_forall in *. intros r Hr. split; [apply (H2 r Hr)|].
      apply (WholeRows.subseq_In _ _ _ H1). now apply in_map. }
  destruct (negb (falsy specific_bibcode)), dirs; try exact Hrun; constructor.
Qed.

End RunExtras.

Local Open Scope string_scope.

(** ** The Dockerfile written for a version *)

Import Pure Subst Cut.

Module Variant.

Lemma extract_some_directive c v :
  extract_base_version c = Some v -> has_from_directive c.
Proof.
  unfold extract_base_version, search.
  destruct (search_from base_version_pattern 0 c) as [[i s sp]|] eqn:E;
    [|discriminate].
  intros _. apply search_from_some in E as (pre & Hc & Hm & _).
  cbn [m_subject m_span] in *.
  apply has_from_directive_iff. exists pre, s. split; auto.
  apply directive_here_match. congruence.
Qed.

Lemma extract_U c v bv :
  extract_base_version c = Some bv ->
  v <> "" -> Str.forallb Chars.is_nonspace v = true ->
  extract_base_version (U v c) = Some v.
Proof.
  intros Hc Hne Hv. apply extract_some_directive in Hc.
  unfold extract_base_version, search.
  destruct (search_U v Hne Hv c 0 0 (directive_found _ _ Hc)) as (m & -> & Hg).
  exact Hg.
Qed.

Lemma drop_while_empty p s :
  Str.drop_while p s = "" -> Str.forallb p s = true.
Proof.
  induction s as [|c s IH]; simpl; auto.
  destruct (p c); [auto|discriminate].
Qed.

Lemma forallb_rev p s : Str.forallb p (Str.rev s) = Str.forallb p s.
Proof.
  induction s as [|c s IH]; auto.
  rewrite rev_cons, forallb_append, IH. simpl.
  rewrite andb_true_r. apply andb_comm.
Qed.

Lemma rev_empty s : Str.rev s = "" -> s = "".
Proof.
  intros H. rewrite <- (rev_rev s), H. reflexivity.
Qed.

Lemma strip_blank s : Str.strip s = "" -> Str.forallb Chars.is_space s = true.
Proof.
  unfold Str.strip. intros H. apply rev_empty in H.
  apply drop_while_empty in H. rewrite forallb_rev in H.
  rewrite <- (take_drop_while Chars.is_space s), forallb_append.
  now rewrite take_while_all, H.
Qed.

Lemma directive_not_blank c :
  has_from_directive c -> Str.forallb Chars.is_space c = false.
Proof.
  intros (pre & ws & a & t & -> & _).
  rewrite forallb_append. cbn. apply andb_false_r.
Qed.

Lemma versions_tokens :
  Forall (fun v => v <> "" /\ Str.forallb Chars.is_nonspace v = true
                   /\ no_backslash v) UBUNTU_VERSIONS.
Proof. repeat constructor; discriminate. Qed.

End Variant.

Section VariantExtras.

Context {W : Type} (env : Env W).

(** X20.  For an artifact from whose Dockerfile a base version was extracted,
    and a version of UBUNTU_VERSIONS, the first thing done is the write of
    Dockerfile_<version> in the directory of the artifact, and the base
    version of the text written is that Ubuntu version. *)
Theorem variant_has_target_version
        (bibcode_dir bibcode base_version dockerfile_content ubuntu_version : string)
        (serial_no : Z) (w : W) :
  extract_base_version dockerfile_content = Some base_version ->
  In ubuntu_version UBUNTU_VERSIONS ->
  exists u rest,
    trace (process_version env bibcode_dir bibcode base_version
             dockerfile_content ubuntu_version serial_no w)
    = EvWriteFile (path_join bibcode_dir ("Dockerfile_" ++ ubuntu_version)) u
      :: rest
    /\ update_dockerfile_content dockerfile_content ubuntu_version = Ret u
    /\ extract_base_version u = Some ubuntu_version.
Proof.
  intros Hc Hin.
  pose proof Variant.versions_tokens as Hv. rewrite Forall_forall in Hv.
  destruct (Hv _ Hin) as (Hne & Hns & Hb).
  pose proof (update_literal dockerfile_content ubuntu_version Hb) as Hu.
  pose proof (Variant.extract_U _ _ _ Hc Hne Hns) as He.
  pose proof (process_version_run env bibcode_dir bibcode base_version
                ubuntu_version dockerfile_content serial_no w) as H.
  cbv zeta in H.
  destruct H as [e Hx|u Hx Hblank|u Hx|u s e l tr1 st' tr2 Hx Hloop Hrec];
    rewrite Hu in Hx; try discriminate; injection Hx as <-.
  - exfalso. apply Variant.strip_blank in Hblank.
    rewrite (Variant.directive_not_blank _ (Variant.extract_some_directive _ _ He))
      in Hblank. discriminate.
  - eauto.
  - eauto.
Qed.

End VariantExtras.

Local Open Scope list_scope.

(** ** Order of writes and builds, skipped artifacts, selection *)

Module Order.

Lemma loop_follows bibcode_dir ubuntu_version content image_tag st tr st' tr2 :
  loop_shape bibcode_dir ubuntu_version content image_tag st tr st' ->
  (forall prev, builds_follow_writes prev tr2) ->
  forall prev, builds_follow_writes prev (tr ++ tr2).
Proof.
  intros H H2. induction H; intros prev; simpl; auto.
Qed.

Lemma record_follows bibcode base_version ubuntu_version image_tag st serial_no tr :
  record_shape bibcode base_version ubuntu_version image_tag st serial_no tr ->
  forall prev, builds_follow_writes prev tr.
Proof. destruct 1; intros prev; simpl; auto. Qed.

Lemma subseq_single {A} (x : A) l : In x l -> subseq [x] l.
Proof.
  induction l as [|y l IH]; intros []; subst.
  - apply subseq_keep, subseq_nil_l.
  - apply subseq_skip; auto.
Qed.

Section Env.

Context {W : Type} (env : Env W).

Lemma keep_dirs_subseq base names w :
  exists dirs, outcome (keep_dirs env base names w) = Ret dirs
               /\ subseq dirs names.
Proof.
  revert w; induction names as [|d names IH]; intros w; cbn [keep_dirs].
  - exists []. split; [reflexivity|constructor].
  - rewrite bind_call.
    destruct (os_path_isdir env _ w) as [isdir w1]; cbn [fst snd].
    destruct (IH w1) as (dirs & Hd & Hi).
    rewrite outcome_bind, Hd. unfold ret. rewrite outcome_eq.
    eexists. split; [reflexivity|].
    destruct isdir; [apply subseq_keep|apply subseq_skip]; exact Hi.
Qed.

End Env.

End Order.

Section MoreExtras.

Context {W : Type} (env : Env W).

(** X21.  For one artifact and one Ubuntu version, every build directly
    follows the write of the Dockerfile it names, in its build context. *)
Theorem built_file_just_written
        (bibcode_dir bibcode base_version dockerfile_content ubuntu_version : string)
        (serial_no : Z) (w : W) :
  builds_follow_writes None
    (trace (process_version env bibcode_dir bibcode base_version
              dockerfile_content ubuntu_version serial_no w)).
Proof.
  pose proof (process_version_run env bibcode_dir bibcode base_version
                ubuntu_version dockerfile_content serial_no w) as H.
  cbv zeta in H.
  destruct H as [e He|u Hu Hb|u Hu|u s e l tr1 st' tr2 Hu Hloop Hrec]; simpl;
    auto.
  split; [reflexivity|].
  apply (Order.loop_follows _ _ _ _ _ _ _ _ Hloop).
  apply (Order.record_follows _ _ _ _ _ _ _ Hrec).
Qed.

(** X22.  An artifact without a Dockerfile, or whose Dockerfile cannot be
    read, is skipped: nothing is written, built or recorded for it, and
    the serial number is unchanged. *)
Theorem artifact_without_dockerfile_skipped (base_directory bibcode : string)
        (serial_no : Z) (w : W) :
  let dockerfile_path :=
    path_join (path_join base_directory bibcode) "Dockerfile" in
  let present := os_path_exists env dockerfile_path w in
  fst present = false
  \/ (exists e, fst (file_read env dockerfile_path (snd present)) = Raise e) ->
  let x := process_bibcode env base_directory bibcode serial_no w in
  outcome x = Ret serial_no /\ trace x = [].
Proof.
  intros p present H x. subst x. unfold process_bibcode. fold p.
  rewrite bind_call. fold present.
  destruct (fst present) eqn:Hp; cbn [negb]; [|split; reflexivity].
  destruct H as [H|(e & H)]; [discriminate|].
  rewrite bind_call, H. split; reflexivity.
Qed.

(** X23.  load_bibcode_directories raises only what os.listdir raises.
    Otherwise its result is taken from the listed names, in their order;
    for a requested Bibcode that is not empty it is that Bibcode alone or
    the empty list. *)
Theorem bibcode_directories_selected (base_directory : string)
        (specific_bibcode : option string) (w : W) :
  match fst (os_listdir env base_directory w) with
  | Raise e =>
      outcome (load_bibcode_directories env base_directory specific_bibcode w)
      = Raise e
  | Ret names =>
      exists dirs,
        outcome (load_bibcode_directories env base_directory specific_bibcode w)
        = Ret dirs
        /\ subseq dirs names
        /\ match specific_bibcode with
           | Some b => b <> ""%string -> dirs = [b] \/ dirs = []
           | None => True
           end
  end.
Proof.
  unfold load_bibcode_directories. rewrite bind_call.
  destruct (os_listdir env base_directory w) as [[names|e] w1]; cbn [fst snd].
  2:{ now rewrite bind_lift_raise. }
  rewrite bind_lift_ret.
  destruct (Order.keep_dirs_subseq env base_directory names w1)
    as (dirs & Hd & Hi).
  rewrite outcome_bind, Hd.
  destruct specific_bibcode as [b|]; cbn [falsy negb].
  - destruct (String.eqb b "") eqn:Eb; cbn [negb].
    + exists dirs. unfold ret. rewrite outcome_eq. repeat split; auto.
      apply String.eqb_eq in Eb. congruence.
    + destruct (existsb (String.eqb b) dirs) eqn:Ee; unfold ret;
        rewrite outcome_eq.
      * exists [b]. split; [reflexivity|]. split; [|auto].
        apply existsb_exists in Ee as (x & Hx & Hb).
        apply String.eqb_eq in Hb. subst x.
        apply Order.subseq_single.
        apply (WholeRows.subseq_In _ _ _ Hi Hx).
      * exists []. split; [reflexivity|]. split; [apply subseq_nil_l|auto].
  - exists dirs. unfold ret. rewrite outcome_eq. auto.
Qed.

End MoreExtras.

(** X24.  The text that fix_dockerfile_with_llm keeps from a generated answer
    is a contiguous part of that answer: nothing is added to it. *)
Theorem extract_fixed_is_part (generated_text : string) :
  occurs (extract_fixed generated_text) generated_text.
Proof.
  unfold extract_fixed.
  assert (Hrefl : forall s, occurs s s).
  { intros s. exists ""%string, ""%string. simpl.
    now rewrite append_nil_r. }
  assert (Htrans : forall a b c, occurs a b -> occurs b c -> occurs a c).
  { intros a b c Hab (l & r & ->). now apply Cut.occurs_inside. }
  assert (Hstrip : forall s, occurs (Str.strip s) s).
  { intros s. destruct (Cut.strip_inside s) as (l & r & Hs). now exists l, r. }
  assert (Hbefore : forall d s,
             occurs (match Str.split_once d s with
                     | Some (before, _) => Str.strip before
                     | None => s
                     end) s).
  { intros d s. destruct (Str.split_once d s) as [[a b]|] eqn:E; auto.
    apply Htrans with a; auto.
    apply Cut.split_once_some in E as (-> & _).
    exists ""%string, (d ++ b)%string. reflexivity. }
  assert (Hafter : occurs (match Str.split_once "Fixed Dockerfile:" generated_text with
                           | Some (_, after) => Str.strip after
                           | None => generated_text
                           end) generated_text).
  { destruct (Str.split_once "Fixed Dockerfile:" generated_text) as [[a b]|] eqn:E;
      auto.
    apply Htrans with b; auto.
    apply Cut.split_once_some in E as (-> & _).
    exists (a ++ "Fixed Dockerfile:")%string, ""%string.
    now rewrite append_nil_r, append_assoc. }
  eapply Htrans; [apply Hbefore|]. eapply Htrans; [apply Hbefore|]. exact Hafter.
Qed.

Local Open Scope string_scope.

(** ** Scenarios of the further properties *)

Lemma extract_base_version_token_witness :
  "18.04" <> ""
  /\ Str.forallb Chars.is_nonspace "18.04" = true
  /\ exists pre ws rest,
       base_dockerfile = pre ++ "FROM" ++ ws ++ "ubuntu:" ++ "18.04" ++ rest
       /\ ws <> "" /\ Str.forallb Chars.is_space ws = true
       /\ stops Chars.is_nonspace rest = true
       /\ forall pre' s', base_dockerfile = pre' ++ s' ->
                          length pre' < length pre -> ~ directive_here s'.
Proof.
  apply (extract_base_version_token base_dockerfile "18.04"). reflexivity.
Defined.

Lemma update_without_directive_witness :
  update_dockerfile_content ("FROM debian:12" ++ LF ++ "RUN make") "20.04"
  = Ret ("FROM debian:12" ++ LF ++ "RUN make").
Proof.
  apply (update_without_directive ("FROM debian:12" ++ LF ++ "RUN make") "20.04");
    reflexivity.
Defined.

Lemma update_twice_witness :
  update_dockerfile_content variant_0 "22.04"
  = update_dockerfile_content base_dockerfile "22.04".
Proof.
  apply (update_twice base_dockerfile "20.04" "22.04" variant_0);
    [discriminate|reflexivity ..].
Defined.

Lemma sanitize_image_tag_keeps_witness :
  sanitize_image_tag "2019apj-871.12_a" = Ret "2019apj-871.12_a".
Proof.
  apply (sanitize_image_tag_keeps "2019apj-871.12_a"). reflexivity.
Defined.

Lemma parse_test_results_extremes_witness :
  (0 <= 3)%Z /\ (0 <= 0)%Z
  /\ (0%Z = 0%Z -> (0 < 3)%Z ->
      PyFloat (float_of_int 100) = PyFloat (float_of_int 100))
  /\ (3%Z = 0%Z -> (0 < 0)%Z ->
      PyFloat (float_of_int 100) = PyFloat (S754_zero false))
  /\ (3%Z = 0%Z -> 0%Z = 0%Z -> PyFloat (float_of_int 100) = PyInt 0).
Proof.
  apply (parse_test_results_extremes "Tests Passed: 3" 3 0
           (PyFloat (float_of_int 100))).
  vm_compute. reflexivity.
Defined.

Lemma builds_stop_at_success_witness :
  let tr := trace (process_version Scripted.env "./A1" "A1" "18.04"
                     base_dockerfile "20.04" 1 two_failures) in
  build_flags tr = [false; false; true]
  /\ nth 1 (build_flags tr) true = false.
Proof.
  cbv zeta. split; [vm_compute; reflexivity|].
  apply (builds_stop_at_success Scripted.env "./A1" "A1" "18.04"
           base_dockerfile "20.04" 1 two_failures 1).
  vm_compute. lia.
Defined.

Lemma note_counts_rebuilds_witness :
  let tr := trace (process_version Scripted.env "./A1" "A1" "18.04"
                     base_dockerfile "20.04" 1 service_down) in
  let r := MkRow 1 "A1" "18.04" "20.04" 0 0 (PyInt 0) "missing"
                 "Attempted fixes via LLM API, 0 retries" in
  rows tr = [r]
  /\ if last (build_flags tr) false
     then modifications r = ""
     else modifications r = retries_note (List.length (build_flags tr) - 1)
          /\ List.length (build_flags tr) - 1 <= max_retries
          /\ cases_passed r = 0%Z /\ cases_failed r = 0%Z
          /\ pass_percentage r = PyInt 0.
Proof.
  cbv zeta. split; [vm_compute; reflexivity|].
  apply (note_counts_rebuilds Scripted.env "./A1" "A1" "18.04"
           base_dockerfile "20.04" 1 service_down).
  vm_compute. left. reflexivity.
Defined.

Lemma variant_has_target_version_witness :
  exists u rest,
    trace (process_version Scripted.env "./A1" "A1" "18.04" base_dockerfile
             "20.04" 1 two_failures)
    = EvWriteFile (path_join "./A1" ("Dockerfile_" ++ "20.04")) u :: rest
    /\ update_dockerfile_content base_dockerfile "20.04" = Ret u
    /\ extract_base_version u = Some "20.04".
Proof.
  apply (variant_has_target_version Scripted.env "./A1" "A1" "18.04"
           base_dockerfile "20.04" 1 two_failures).
  - reflexivity.
  - do 3 right. left. reflexivity.
Defined.

Lemma artifact_without_dockerfile_skipped_witness :
  let x := process_bibcode Scripted.env "." "A1" 1
             (Scripted.MkWorld ["A1"] [] [] [] []) in
  outcome x = Ret 1%Z /\ trace x = [].
Proof.
  apply (artifact_without_dockerfile_skipped Scripted.env "." "A1" 1
           (Scripted.MkWorld ["A1"] [] [] [] [])).
  left. reflexivity.
Defined.
